(** * Rodent predictor: the prediction handler of [api/predict.py]

    A shallow embedding of [handle_predict] and of the module-level
    loading code it depends on, with the properties of validation, of the
    feature assembly and of the risk normalisation.

    Numbers.  The anomaly score and the arithmetic of lines 85-91 are
    binary64 floats (module [Binary64]); the handler computes with them.
    Module [Rounding] gives the rounding of binary64 arithmetic on
    rationals, and [normalize_rounded] the same lines with that rounding
    after every arithmetic step, for the properties that range over all
    scores.

    Artifacts.  The model and the encoder are objects loaded from files;
    they appear through the methods the handler calls on them, each of
    which may raise.  The handler is a function of the module state and of
    the parsed request body; it yields the calls it made into the artifacts
    and the response.  Console output is left out. *)

From Stdlib Require Import QArith Qround Qabs Qpower ZArith Lia Lqa Floats.
From stdpp Require Import gmap strings list fin_maps pretty.

Set Warnings "-inexact-float,-register-all".

Local Open Scope Q_scope.

(** ** Risk normaliser (lines 82-91) on rationals *)

Module Risk.

(** Python's two-argument [min(a, b)] and [max(a, b)]: the first argument
    is returned unless the second is strictly smaller (resp. larger). *)
Definition py_min (a b : Q) : Q :=
  match Qcompare b a with Lt => b | _ => a end.
Definition py_max (a b : Q) : Q :=
  match Qcompare b a with Gt => b | _ => a end.

(** Line 86: [max(0, min(100, risk_percentage))]. *)
Definition clamp (risk : Q) : Q := py_max 0 (py_min 100 risk).

(** Python 3 [round(x)] with one argument: the nearest integer, a tie
    going to the even neighbour. *)
Definition py_round (x : Q) : Z :=
  let f := Qfloor x in
  match Qcompare (x - inject_Z f) (1 # 2) with
  | Lt => f
  | Gt => (f + 1)%Z
  | Eq => if Z.even f then f else (f + 1)%Z
  end.

(** Lines 82-91 with every arithmetic result rounded by [fl], as
    floating-point arithmetic does: the two literals, the two
    subtractions, the product and the quotient. *)
Definition normalize_rounded (fl : Q -> Q) (anomaly_score_raw : Q) : Z :=
  let min_score := - fl (2 # 10) in
  let max_score := fl (2 # 10) in
  py_round (clamp (fl (fl (100 * fl (max_score - anomaly_score_raw))
                       / fl (max_score - min_score)))).

End Risk.

(** ** Rounding to binary64 *)

Module Rounding.

(** For [x > 0], the integer [l] with [2^l <= x < 2^(l+1)]. *)
Definition ilog2 (x : Q) : Z :=
  let l := (Z.log2 (Qnum x) - Z.log2 (Zpos (Qden x)))%Z in
  if Qle_bool (2 ^ l) x then l else (l - 1)%Z.

(** The exponent of the last place of a binary64 number of the size of
    [x]: 53 significant bits, and no bit below [2^-1074]. *)
Definition ulp_exponent (x : Q) : Z := Z.max (ilog2 x - 52) (-1074).

(** The binary64 number nearest to [x > 0], ties to the even one. *)
Definition round_positive (x : Q) : Q :=
  let e := ulp_exponent x in
  inject_Z (Risk.py_round (x / 2 ^ e)) * 2 ^ e.

(** Round to nearest, ties to even, onto binary64: what every basic
    operation of IEEE 754 arithmetic applies to its exact result.  The
    exponent is not bounded above (no overflow to an infinity). *)
Definition binary64 (x : Q) : Q :=
  match Qcompare x 0 with
  | Eq => 0
  | Gt => round_positive x
  | Lt => - round_positive (- x)
  end.

End Rounding.


(** ** The normaliser on binary64 floats *)

Module Binary64.

Definition min_score : float := (- 0.2)%float.
Definition max_score : float := 0.2%float.

Definition risk_percentage (score_for_scaling : float) : float :=
  (100 * (max_score - score_for_scaling) / (max_score - min_score))%float.

Definition py_min (a b : float) : float := if PrimFloat.ltb b a then b else a.
Definition py_max (a b : float) : float := if PrimFloat.ltb a b then b else a.

Definition clamp (risk : float) : float := py_max 0%float (py_min 100%float risk).

(** Nearest integer, ties to even, of [m * 2^e] for a positive mantissa. *)
Definition round_half_even (m : positive) (e : Z) : Z :=
  match e with
  | Z0 => Zpos m
  | Zpos p => Zpos m * 2 ^ Zpos p
  | Zneg p =>
      let d := (2 ^ Zpos p)%Z in
      let q := (Zpos m / d)%Z in
      let r := (Zpos m mod d)%Z in
      match (2 * r ?= d)%Z with
      | Lt => q
      | Gt => (q + 1)%Z
      | Eq => if Z.even q then q else (q + 1)%Z
      end
  end.

(** [round(x)]: [None] stands for the exception Python raises on an
    infinity or a NaN. *)
Definition py_round (x : float) : option Z :=
  match Prim2SF x with
  | S754_zero _ => Some 0%Z
  | S754_finite s m e =>
      Some (if s then (- round_half_even m e)%Z else round_half_even m e)
  | S754_infinity _ | S754_nan => None
  end.

(** The value sent as ["risk_percentage"] (lines 82-91). *)
Definition normalize (anomaly_score_raw : float) : option Z :=
  py_round (clamp (risk_percentage anomaly_score_raw)).

(** The rational a finite float stands for (0 for the other ones). *)
Definition value (x : float) : Q :=
  match Prim2SF x with
  | S754_finite s m e =>
      (if s then - inject_Z (Zpos m) else inject_Z (Zpos m)) * 2 ^ e
  | _ => 0
  end.

(** The float [z] for an integer of small size, and the float nearest to
    [z / 1000] (what the literal of three decimals denotes). *)
Definition of_Z (z : Z) : float :=
  match z with
  | Z0 => 0%float
  | Zpos _ => PrimFloat.of_uint63 (Uint63.of_Z z)
  | Zneg p => (- PrimFloat.of_uint63 (Uint63.of_Z (Zpos p)))%float
  end.
Definition thousandth (z : Z) : float := (of_Z z / 1000)%float.


End Binary64.


(** ** Data model *)

(** A parsed JSON value, as [request.get_json()] returns it. *)
Inductive json :=
| JNull
| JBool (b : bool)
| JNum (x : Q)
| JStr (s : string)
| JArr (xs : list json)
| JObj (kvs : gmap string json).

(** The text of a raised exception ([str(e)]). *)
Abbreviation exn := string (only parsing).

(** One row of a [DataFrame]: the column labels with the cell of each, in
    column order.  Labels may repeat. *)
Abbreviation row := (list (string * json)) (only parsing).

Definition labels (r : row) : list string := r.*1.

(** The leftmost cell labelled [name]. *)
Fixpoint cell (name : string) (r : row) : option json :=
  match r with
  | [] => None
  | (l, v) :: r' => if decide (l = name) then Some v else cell name r'
  end.

(** The fitted one-hot encoder, through the two methods the handler calls
    on it; either may raise. *)
Record Encoder := {
  transform : row -> exn + list Q;
  get_feature_names_out : list string -> exn + list string
}.

(** The fitted isolation forest: [decision_function(X)[0]] on a frame of
    one row. *)
Record Model := {
  decision_function : row -> exn + float
}.

(** The module-level names read by the handler. *)
Record Globals := {
  model : option Model;
  encoder : option Encoder;
  model_input_columns : list string
}.

Inductive Body :=
| Error (error : string)
| Result (risk_percentage : Z) (raw_anomaly_score : float).

Record Response := { body : Body; status : nat }.

(** Calls into the two artifacts, in the order they are made. *)
Inductive Event :=
| Transform (X : row)
| GetFeatureNamesOut (input_features : list string)
| DecisionFunction (X : row).

(** ** Effects: raised exceptions and calls into the artifacts *)

(** A computation inside the [try] block: the calls made so far, and
    either the exception that ended it or its value. *)
Definition M (A : Type) : Type := list Event * (exn + A).

#[export] Instance M_ret : MRet M := λ A a, ([], inr a).

#[export] Instance M_bind : MBind M := λ A B k m,
  match m with
  | (t, inl e) => (t, inl e)
  | (t, inr a) => let '(t', r) := k a in (t ++ t', r)
  end.

(** A step that calls no artifact. *)
Definition lift {A} (r : exn + A) : M A := ([], r).

(** A call into an artifact, recorded whether or not it raises. *)
Definition call {A} (ev : Event) (r : exn + A) : M A := ([ev], r).

(** ** The pandas operations used by the handler *)

(** [pd.DataFrame([input_data])].  A JSON object gives one column per key.
    Any other value gives integer column labels [0, 1, ...], none of which
    is a string label: no string-labelled column exists. *)
Definition DataFrame_of_record (input_data : json) : gmap string json :=
  match input_data with
  | JObj kvs => kvs
  | _ => ∅
  end.

(** [col in input_df.columns]. *)
Definition has_column (input_df : gmap string json) (col : string) : bool :=
  match input_df !! col with Some _ => true | None => false end.

(** Python's [repr] of a list of strings free of quotes and escapes. *)
Fixpoint repr_items (l : list string) : string :=
  match l with
  | [] => EmptyString
  | [x] => "'" +:+ x +:+ "'"
  | x :: l' => "'" +:+ x +:+ "', " +:+ repr_items l'
  end.
Definition repr_list (l : list string) : string := "[" +:+ repr_items l +:+ "]".

(** [input_df[cols]]: the listed columns in the listed order; a label
    that is no column raises [KeyError]. *)
Fixpoint select (input_df : gmap string json) (cols : list string) : exn + row :=
  match cols with
  | [] => inr []
  | c :: cols' =>
      match input_df !! c with
      | None => inl (repr_list [c] +:+ " not in index")
      | Some v =>
          match select input_df cols' with
          | inl e => inl e
          | inr r => inr ((c, v) :: r)
          end
      end
  end.

(** [pd.DataFrame(values, columns=columns, index=input_df.index)] for the
    one row [values]: the widths must agree. *)
Definition DataFrame_of_values (values : list Q) (columns : list string) : exn + row :=
  if decide (length values = length columns)
  then inr (zip columns (JNum <$> values))
  else inl ("Shape of passed values is (1, " +:+ pretty (length values)
            +:+ "), indices imply (1, " +:+ pretty (length columns) +:+ ")").

(** [pd.concat([a, b], axis=1)] on two frames sharing the one row index. *)
Definition concat_columns (a b : row) : row := a ++ b.

(** The columns [columns] of [r], in that order, a label absent from [r]
    giving [fill_value]. *)
Definition take_columns (r : row) (columns : list string) (fill_value : json) : row :=
  (λ c, (c, default fill_value (cell c r))) <$> columns.

(** [r.reindex(columns=columns, fill_value=fill_value)].  When the labels
    of [r] already equal [columns] the frame is returned as it is; else the
    labels of [r] must be unique. *)
Definition reindex (r : row) (columns : list string) (fill_value : json) : exn + row :=
  if decide (labels r = columns) then inr r
  else if decide (NoDup (labels r)) then inr (take_columns r columns fill_value)
  else inl "cannot reindex on an axis with duplicate labels".

(** Truth value of a JSON value ([not input_data], line 44). *)
Definition truthy (v : json) : bool :=
  match v with
  | JNull => false
  | JBool b => b
  | JNum x => negb (Qeq_bool x 0)
  | JStr s => negb (bool_decide (s = EmptyString))
  | JArr xs => negb (bool_decide (xs = []))
  | JObj kvs => negb (bool_decide (size kvs = 0%nat))
  end.

(** ** The handler (lines 37-97) *)

Definition required_input_cols : list string :=
  ["soil_type"; "crop_type"; "tillage_type"; "season";
   "temp_7day_avg_f"; "precip_7day_total_in"].
Definition categorical_cols : list string :=
  ["soil_type"; "crop_type"; "tillage_type"; "season"].
Definition numerical_cols : list string :=
  ["temp_7day_avg_f"; "precip_7day_total_in"].

Definition jsonify_error (msg : string) (code : nat) : Response :=
  {| body := Error msg; status := code |}.

(** Line 52: [all(col in input_df.columns for col in required_input_cols)]. *)
Definition validate (input_df : gmap string json) : bool :=
  forallb (has_column input_df) required_input_cols.

Definition missing_fields_message : string :=
  "Missing required input fields. Need: " +:+ repr_list required_input_cols.

(** Lines 56-68: from the frame of the request to [features_final]. *)
Definition preprocess (enc : Encoder) (columns : list string)
    (input_df : gmap string json) : M row :=
  cats ← lift (select input_df categorical_cols);
  encoded_cats ← call (Transform cats) (transform enc cats);
  names ← call (GetFeatureNamesOut categorical_cols)
                (get_feature_names_out enc categorical_cols);
  encoded_cats_df ← lift (DataFrame_of_values encoded_cats names);
  nums ← lift (select input_df numerical_cols);
  let features_combined := concat_columns nums encoded_cats_df in
  lift (reindex features_combined columns (JNum 0)).

(** Lines 74-93: scoring and interpretation.  [round] raises on a NaN or
    an infinity, which the [except] clause would catch. *)
Definition predict (m : Model) (features_final : row) : M Response :=
  anomaly_score_raw ← call (DecisionFunction features_final)
                            (decision_function m features_final);
  match Binary64.normalize anomaly_score_raw with
  | Some risk_percentage =>
      mret {| body := Result risk_percentage anomaly_score_raw; status := 200 |}
  | None => lift (inl "cannot convert float to integer")
  end.

(** The body of the [try] block (lines 42-93). *)
Definition try_block (m : Model) (enc : Encoder) (columns : list string)
    (input_data : json) : M Response :=
  if negb (truthy input_data) then
    mret (jsonify_error "No input data provided" 400)
  else
    let input_df := DataFrame_of_record input_data in
    if negb (validate input_df) then
      mret (jsonify_error missing_fields_message 400)
    else
      features_final ← preprocess enc columns input_df;
      predict m features_final.

(** [handle_predict]: the calls made into the artifacts, and the
    response. *)
Definition handle_predict (g : Globals) (input_data : json) : list Event * Response :=
  match model g, encoder g with
  | Some m, Some enc =>
      match try_block m enc (model_input_columns g) input_data with
      | (t, inr response) => (t, response)
      | (t, inl e) => (t, jsonify_error ("Prediction failed: " +:+ e) 500)
      end
  | _, _ => ([], jsonify_error "Model not loaded. Check server logs." 500)
  end.

(** ** Module load (lines 15-32) *)

Definition load_failed : Globals :=
  {| model := None; encoder := None; model_input_columns := [] |}.

(** The [try]/[except] around the two [joblib.load] calls, given what each
    returns or raises. *)
Definition load (model_file : exn + Model) (encoder_file : exn + Encoder) : Globals :=
  match model_file with
  | inl _ => load_failed
  | inr m =>
      match encoder_file with
      | inl _ => load_failed
      | inr enc =>
          match get_feature_names_out enc
                  ["soil_type"; "crop_type"; "tillage_type"; "season"] with
          | inl _ => load_failed
          | inr expected_columns =>
              {| model := Some m; encoder := Some enc;
                 model_input_columns := numerical_cols ++ expected_columns |}
          end
      end
  end.

(** ** The routes as Flask calls them *)

(** [handle_predict] with line 43 included: [request.get_json()] is
    called inside the [try] block, after the guard on the artifacts, and
    raises when the body cannot be read as JSON. *)
Definition handle_predict_request (g : Globals) (get_json : exn + json)
    : list Event * Response :=
  match get_json with
  | inr input_data => handle_predict g input_data
  | inl e =>
      match model g, encoder g with
      | Some _, Some _ => ([], jsonify_error ("Prediction failed: " +:+ e) 500)
      | _, _ => ([], jsonify_error "Model not loaded. Check server logs." 500)
      end
  end.

(** [home] (lines 100-108), given what [render_template('index.html')]
    returns or raises: the page, or a fixed text with status 500. *)
Definition home (render_template : exn + string) : string * nat :=
  match render_template with
  | inr page => (page, 200%nat)
  | inl _ => ("Error: Could not load the prediction form.", 500%nat)
  end.

(** ** The categorical encoder of the specification *)

(** Modelled from the spec: the fitted Categorical Encoder is an artifact
    that is not in the repository.  A categorical value is a string.  One
    slot per (feature, category) pair known at fit time, in feature order
    then category order; a string equal to no fitted category of its
    feature leaves all slots of that feature at zero, and so does a missing
    value (null); a value of another kind (a number, a boolean, a list, an
    object) is rejected.  Slot names are the feature name, an underscore
    and the category. *)
Definition one_hot_slots (fitted : list string) (value : option string) : list Q :=
  (λ c, if decide (value = Some c) then 1 else 0) <$> fitted.

(** The categorical values of a row: strings, or nothing for null. *)
Fixpoint categorical_values (cells : list json) : exn + list (option string) :=
  match cells with
  | [] => inr []
  | cell :: cells' =>
      match cell, categorical_values cells' with
      | JStr s, inr values => inr (Some s :: values)
      | JNull, inr values => inr (None :: values)
      | (JStr _ | JNull), inl e => inl e
      | _, _ => inl "encoder input holds a value that is not a string"
      end
  end.

Definition slot_names (feature : string) (fitted : list string) : list string :=
  (λ c, feature +:+ "_" +:+ c) <$> fitted.

Definition one_hot_encoder (categories : list (list string)) : Encoder :=
  {| transform X :=
       if decide (length X = length categories)
       then match categorical_values X.*2 with
            | inl e => inl e
            | inr values => inr (concat (zip_with one_hot_slots categories values))
            end
       else inl "X has a different number of features than the fitted encoder";
     get_feature_names_out input_features :=
       if decide (length input_features = length categories)
       then inr (concat (zip_with slot_names input_features categories))
       else inl "input_features should have length equal to number of features" |}.

(** The columns one feature contributes to the encoded frame. *)
Definition feature_block (feature : string) (fitted : list string)
    (value : option string) : row :=
  zip (slot_names feature fitted) (JNum <$> one_hot_slots fitted value).

(** ** Concrete artifacts and requests used in the examples *)

Module Fixture.

Definition fitted_categories : list (list string) :=
  [["clay"; "loam"]; ["corn"; "wheat"]; ["conventional"; "no-till"];
   ["fall"; "spring"]].

(** A model answering the same score on every frame. *)
Definition constant_model (score : float) : Model :=
  {| decision_function := λ _, inr score |}.

(** A model scoring a frame by its temperature column alone, and
    raising on a frame without a numeric temperature. *)
Definition temperature_model : Model :=
  {| decision_function X :=
       match cell "temp_7day_avg_f" X with
       | Some (JNum t) => inr (if Qle_bool t 68 then 0.1 else -0.1)%float
       | _ => inl "could not convert string to float"
       end |}.

(** A model whose scoring call raises. *)
Definition raising_model (cause : exn) : Model :=
  {| decision_function := λ _, inl cause |}.

(** An encoder whose [transform] raises. *)
Definition raising_encoder (cause : exn) : Encoder :=
  {| transform := λ _, inl cause;
     get_feature_names_out :=
       get_feature_names_out (one_hot_encoder fitted_categories) |}.

Definition loaded : Globals :=
  load (inr (constant_model 0.1)) (inr (one_hot_encoder fitted_categories)).

(** The end-to-end example request of the specification. *)
Definition request : gmap string json :=
  <["soil_type" := JStr "loam"]> (<["crop_type" := JStr "corn"]>
  (<["tillage_type" := JStr "no-till"]> (<["season" := JStr "spring"]>
  (<["temp_7day_avg_f" := JNum 68]>
  (<["precip_7day_total_in" := JNum 1.2]> ∅))))).

(** The same request with a null [soil_type]. *)
Definition request_null_soil : gmap string json :=
  <["soil_type" := JNull]> request.

(** The same request without [season]. *)
Definition request_no_season : gmap string json := delete "season" request.

(** The same request with a key the handler does not know. *)
Definition request_extra : gmap string json :=
  <["farm_id" := JStr "F-17"]> request.

(** A soil type that was not fitted. *)
Definition request_unseen_soil : gmap string json :=
  <["soil_type" := JStr "peat"]> request.

(** Module states in which one artifact raises when called. *)
Definition loaded_raising_encoder (cause : exn) : Globals :=
  load (inr (constant_model 0.1)) (inr (raising_encoder cause)).
Definition loaded_raising_model (cause : exn) : Globals :=
  load (inr (raising_model cause)) (inr (one_hot_encoder fitted_categories)).

End Fixture.

(** [name] occurs in [msg]. *)
Definition mentions (msg name : string) : bool :=
  match String.index 0 name msg with Some _ => true | None => false end.

(** ** Properties of clamping and rounding on rationals *)

Section RiskFacts.
Import Risk.

Lemma py_min_spec (a b : Q) :
  (b < a /\ py_min a b = b) \/ (a <= b /\ py_min a b = a).
Proof.
  unfold py_min. destruct (Qcompare_spec b a) as [E | L | G].
  - right. split; [rewrite E; apply Qle_refl | reflexivity].
  - left. split; [exact L | reflexivity].
  - right. split; [apply Qlt_le_weak, G | reflexivity].
Qed.

Lemma py_max_spec (a b : Q) :
  (a < b /\ py_max a b = b) \/ (b <= a /\ py_max a b = a).
Proof.
  unfold py_max. destruct (Qcompare_spec b a) as [E | L | G].
  - right. split; [rewrite E; apply Qle_refl | reflexivity].
  - right. split; [apply Qlt_le_weak, L | reflexivity].
  - left. split; [exact G | reflexivity].
Qed.

Lemma clamp_cases (x : Q) :
  (x <= 0 /\ clamp x = 0) \/ (0 < x < 100 /\ clamp x = x) \/ (100 <= x /\ clamp x = 100).
Proof.
  unfold clamp.
  destruct (py_min_spec 100 x) as [[L ->] | [L ->]].
  - destruct (py_max_spec 0 x) as [[P ->] | [P ->]].
    + right. left. split; [split; assumption | reflexivity].
    + left. split; [assumption | reflexivity].
  - right. right. split; [assumption | reflexivity].
Qed.

Lemma clamp_monotone (x y : Q) : x <= y -> clamp x <= clamp y.
Proof.
  intros H.
  destruct (clamp_cases x) as [[Hx ->] | [[Hx ->] | [Hx ->]]];
    destruct (clamp_cases y) as [[Hy ->] | [[Hy ->] | [Hy ->]]]; lra.
Qed.

Lemma clamp_range (x : Q) : 0 <= clamp x <= 100.
Proof.
  destruct (clamp_cases x) as [[Hx ->] | [[Hx ->] | [Hx ->]]]; lra.
Qed.

Lemma floor_bounds (x : Q) : inject_Z (Qfloor x) <= x < inject_Z (Qfloor x) + 1.
Proof.
  split; [apply Qfloor_le |].
  pose proof (Qlt_floor x) as H. rewrite inject_Z_plus in H. exact H.
Qed.

(** [py_round x] is the floor of [x] or its successor, according to the
    fractional part. *)
Lemma py_round_cases (x : Q) :
  (x - inject_Z (Qfloor x) < 1 # 2 /\ py_round x = Qfloor x) \/
  (x - inject_Z (Qfloor x) == 1 # 2 /\ Z.even (Qfloor x) = true /\
   py_round x = Qfloor x) \/
  (x - inject_Z (Qfloor x) == 1 # 2 /\ Z.even (Qfloor x) = false /\
   py_round x = (Qfloor x + 1)%Z) \/
  (1 # 2 < x - inject_Z (Qfloor x) /\ py_round x = (Qfloor x + 1)%Z).
Proof.
  unfold py_round.
  destruct (Qcompare_spec (x - inject_Z (Qfloor x)) (1 # 2)) as [E | L | G].
  - destruct (Z.even (Qfloor x)) eqn:Ev; [right; left | right; right; left]; auto.
  - left; auto.
  - right; right; right; auto.
Qed.

Lemma py_round_nearest (x : Q) : Qabs (x - inject_Z (py_round x)) <= 1 # 2.
Proof.
  pose proof (floor_bounds x) as [Hlo Hhi].
  apply Qabs_Qle_condition.
  destruct (py_round_cases x) as [[H ->] | [[H [_ ->]] | [[H [_ ->]] | [H ->]]]];
    rewrite ?inject_Z_plus; change (inject_Z 1) with 1; lra.
Qed.

Lemma py_round_monotone (x y : Q) : x <= y -> (py_round x <= py_round y)%Z.
Proof.
  intros H.
  pose proof (Qfloor_resp_le _ _ H) as Hf.
  pose proof (floor_bounds x) as [Hxl Hxh].
  pose proof (floor_bounds y) as [Hyl Hyh].
  destruct (Z.eq_dec (Qfloor x) (Qfloor y)) as [E | N].
  - destruct (py_round_cases x) as [[Hx ->] | [[Hx [Ex ->]] | [[Hx [Ex ->]] | [Hx ->]]]];
      destruct (py_round_cases y) as [[Hy ->] | [[Hy [Ey ->]] | [[Hy [Ey ->]] | [Hy ->]]]];
      try lia; rewrite E in *; try congruence; lra.
  - assert (py_round x <= Qfloor x + 1)%Z
      by (destruct (py_round_cases x) as [[_ ->] | [[_ [_ ->]] | [[_ [_ ->]] | [_ ->]]]]; lia).
    assert (Qfloor y <= py_round y)%Z
      by (destruct (py_round_cases y) as [[_ ->] | [[_ [_ ->]] | [[_ [_ ->]] | [_ ->]]]]; lia).
    lia.
Qed.

Lemma py_round_integer (z : Z) : py_round (inject_Z z) = z.
Proof.
  unfold py_round. rewrite Qfloor_Z.
  assert (E : inject_Z z - inject_Z z == 0) by ring.
  destruct (Qcompare_spec (inject_Z z - inject_Z z) (1 # 2)) as [H | H | H];
    [rewrite E in H; discriminate | reflexivity | rewrite E in H; discriminate].
Qed.

(** X15.  Monotonicity does not depend on the arithmetic being exact: it holds
    under any monotone rounding that keeps the calibration span positive. *)
Lemma normalize_rounded_antitone (fl : Q -> Q) (s1 s2 : Q) :
  (forall x y, x <= y -> fl x <= fl y) ->
  0 < fl (fl (2 # 10) - - fl (2 # 10)) ->
  s1 <= s2 -> (normalize_rounded fl s2 <= normalize_rounded fl s1)%Z.
Proof.
  intros Hfl Hspan H. unfold normalize_rounded.
  apply py_round_monotone, clamp_monotone, Hfl.
  apply Qmult_le_compat_r; [| apply Qlt_le_weak, Qinv_lt_0_compat, Hspan].
  apply Hfl. apply Qmult_le_l; [reflexivity |]. apply Hfl. lra.
Qed.

End RiskFacts.

(** ** The binary64 normaliser never fails to round *)

Lemma digits2_pos_bound (m : positive) : (Zpos m < 2 ^ Zpos (digits2_pos m))%Z.
Proof.
  induction m as [m IH | m IH |]; simpl digits2_pos;
    rewrite ?Pos2Z.inj_succ, ?Z.pow_succ_r by lia; lia.
Qed.

Lemma valid_mantissa_bound (s : bool) (m : positive) (e : Z) :
  valid_binary (S754_finite s m e) = true → (Zpos m < 2 ^ 53)%Z.
Proof.
  unfold valid_binary, SpecFloat.valid_binary, bounded, canonical_mantissa, fexp.
  intros H. apply andb_true_iff in H as [H _]. apply Z.eqb_eq in H.
  pose proof (digits2_pos_bound m) as Hm.
  assert (Hd : (Zpos (digits2_pos m) <= 53)%Z) by (unfold prec in H; lia).
  eapply Z.lt_le_trans; [exact Hm |]. apply Z.pow_le_mono_r; lia.
Qed.

Lemma round_half_even_below_100 (m : positive) (p : positive) :
  (Zpos m < 100 * 2 ^ Zpos p)%Z →
  (0 <= Binary64.round_half_even m (Zneg p) <= 100)%Z.
Proof.
  intros H. unfold Binary64.round_half_even.
  assert (Hd : (0 < 2 ^ Zpos p)%Z) by (apply Z.pow_pos_nonneg; lia).
  assert (Hq : (0 <= Zpos m / 2 ^ Zpos p < 100)%Z).
  { split; [apply Z.div_pos; lia | apply Z.div_lt_upper_bound; lia]. }
  destruct (2 * (Zpos m mod 2 ^ Zpos p) ?= 2 ^ Zpos p)%Z;
    [destruct (Z.even _) | |]; lia.
Qed.

Lemma Prim2SF_100 : Prim2SF 100 = S754_finite false 7036874417766400 (-46).
Proof. vm_compute. reflexivity. Qed.

Lemma Prim2SF_0 : Prim2SF 0 = S754_zero false.
Proof. vm_compute. reflexivity. Qed.

(** Whatever binary64 value line 85 produces (a NaN and the infinities
    included), clamping and rounding it gives an integer in [0, 100]. *)
Lemma clamp_round_total (risk : float) :
  ∃ k, Binary64.py_round (Binary64.clamp risk) = Some k ∧ (0 <= k <= 100)%Z.
Proof.
  unfold Binary64.clamp, Binary64.py_min.
  destruct (PrimFloat.ltb risk 100) eqn:H100;
    [| exists 100%Z; split; [by vm_compute | lia]].
  unfold Binary64.py_max.
  destruct (PrimFloat.ltb 0 risk) eqn:H0;
    [| exists 0%Z; split; [by vm_compute | lia]].
  rewrite ltb_spec in H100, H0.
  rewrite Prim2SF_100 in H100. rewrite Prim2SF_0 in H0.
  pose proof (Prim2SF_valid risk) as Hv.
  unfold Binary64.py_round.
  destruct (Prim2SF risk) as [s | s | | s m e]; try discriminate.
  - by destruct s.
  - destruct s; [discriminate |].
    apply valid_mantissa_bound in Hv.
    unfold SFltb, SFcompare in H100.
    destruct (e ?= -46)%Z eqn:He; try discriminate.
    + apply Z.compare_eq in He. subst e.
      assert (Hm : (m < 7036874417766400)%positive).
      { unfold Pos.lt, Pos.compare.
        destruct (Pos.compare_cont Eq m 7036874417766400);
          [discriminate H100 | reflexivity | discriminate H100]. }
      exists (Binary64.round_half_even m (-46)). split; [reflexivity |].
      apply round_half_even_below_100.
      apply Pos2Z.pos_lt_pos in Hm.
      replace (100 * 2 ^ 46)%Z with (Zpos 7036874417766400)
        by (vm_compute; reflexivity).
      exact Hm.
    + apply Z.compare_lt_iff in He. clear H100 H0.
      destruct e as [| p | p]; [discriminate He | discriminate He |].
      eexists. split; [reflexivity |].
      apply round_half_even_below_100.
      change (Z.neg p < -46)%Z in He.
      assert (Hp : (47 <= Zpos p)%Z) by (clear - He; lia).
      assert (Hpow : (2 ^ 47 <= 2 ^ Zpos p)%Z)
        by (apply Z.pow_le_mono_r; [lia | exact Hp]).
      change (2 ^ 53)%Z with (64 * 2 ^ 47)%Z in Hv.
      clear - Hv Hpow. set (a := (2 ^ 47)%Z) in *. set (b := (2 ^ Zpos p)%Z) in *.
      clearbody a b. lia.
Qed.

(** X14.  On every binary64 score, a NaN and the infinities included, the
    normaliser yields an integer in [0, 100]: the clamp of line 86 keeps
    [round] away from the values on which it raises.  A NaN and minus
    infinity give 100, plus infinity gives 0. *)
Theorem binary64_normalize_total :
  (∀ anomaly_score_raw : float,
     ∃ k, Binary64.normalize anomaly_score_raw = Some k ∧ (0 <= k <= 100)%Z) ∧
  Binary64.normalize nan = Some 100%Z ∧
  Binary64.normalize neg_infinity = Some 100%Z ∧
  Binary64.normalize infinity = Some 0%Z.
Proof.
  split; [intros s; apply clamp_round_total |].
  by vm_compute.
Qed.


(** ** Rounding to binary64 is monotone *)

Section RoundingFacts.
Import Rounding.

Lemma pow2_pos (e : Z) : 0 < 2 ^ e.
Proof. by apply Qpower_0_lt. Qed.

Lemma pow2_succ (e : Z) : 2 ^ (e + 1) == 2 * 2 ^ e.
Proof. rewrite Qpower_plus by discriminate. change (2 ^ 1) with 2. ring. Qed.

Lemma pow2_add (a b : Z) : 2 ^ (a + b) == 2 ^ a * 2 ^ b.
Proof. by rewrite Qpower_plus. Qed.

Lemma pow2_inject_Z (p : Z) : (0 <= p)%Z -> 2 ^ p == inject_Z (2 ^ p).
Proof. intros H. symmetry. exact (Zpower_Qpower 2 p H). Qed.

Lemma pow2_monotone (a b : Z) : (a <= b)%Z -> 2 ^ a <= 2 ^ b.
Proof. intros H. by apply Qpower_le_compat_l. Qed.

Lemma log2_bounds (n : Z) :
  (0 < n)%Z -> 2 ^ Z.log2 n <= inject_Z n < 2 * 2 ^ Z.log2 n.
Proof.
  intros Hn. destruct (Z.log2_spec n Hn) as [Hlo Hhi].
  pose proof (Z.log2_nonneg n) as Hl.
  rewrite <- pow2_succ.
  change 2 with (inject_Z 2). rewrite <- !Zpower_Qpower by lia.
  rewrite <- Zle_Qle, <- Zlt_Qlt. split; [exact Hlo | exact Hhi].
Qed.

Lemma ilog2_spec (x : Q) : 0 < x -> 2 ^ ilog2 x <= x < 2 ^ (ilog2 x + 1).
Proof.
  intros Hx. destruct x as [n d].
  assert (Hn : (0 < n)%Z) by (unfold Qlt in Hx; simpl in Hx; lia).
  unfold ilog2. cbn [Qnum Qden].
  set (ln := Z.log2 n). set (ld := Z.log2 (Zpos d)).
  destruct (log2_bounds n Hn) as [Hn1 Hn2]. fold ln in Hn1, Hn2.
  destruct (log2_bounds (Zpos d) eq_refl) as [Hd1 Hd2]. fold ld in Hd1, Hd2.
  pose proof (pow2_pos ln) as HA. pose proof (pow2_pos ld) as HB.
  assert (Hq : (n # d) * inject_Z (Zpos d) == inject_Z n).
  { rewrite (Qmake_Qdiv n d). field. discriminate. }
  assert (Hl : 2 ^ (ln - ld) * 2 ^ ld == 2 ^ ln).
  { rewrite <- pow2_add. by replace (ln - ld + ld)%Z with ln by ring. }
  pose proof (pow2_pos (ln - ld)) as HR.
  assert (Hup : (n # d) < 2 * 2 ^ (ln - ld)).
  { set (x := n # d) in *. set (r := 2 ^ (ln - ld)) in *.
    set (A := 2 ^ ln) in *. set (B := 2 ^ ld) in *.
    set (N := inject_Z n) in *. set (D := inject_Z (Zpos d)) in *.
    clearbody x r A B N D. nra. }
  assert (Hdown : 2 ^ (ln - ld) < 2 * (n # d)).
  { set (x := n # d) in *. set (r := 2 ^ (ln - ld)) in *.
    set (A := 2 ^ ln) in *. set (B := 2 ^ ld) in *.
    set (N := inject_Z n) in *. set (D := inject_Z (Zpos d)) in *.
    clearbody x r A B N D. nra. }
  destruct (Qle_bool (2 ^ (ln - ld)) (n # d)) eqn:Hb.
  - apply Qle_bool_iff in Hb. rewrite pow2_succ. split; [exact Hb | exact Hup].
  - assert (Hlt : (n # d) < 2 ^ (ln - ld)).
    { apply Qnot_le_lt. intros H. apply Qle_bool_iff in H. congruence. }
    replace (ln - ld - 1 + 1)%Z with (ln - ld)%Z by ring.
    assert (Hs : 2 ^ (ln - ld) == 2 * 2 ^ (ln - ld - 1)).
    { rewrite <- pow2_succ. by replace (ln - ld - 1 + 1)%Z with (ln - ld)%Z by ring. }
    split; [| exact Hlt]. rewrite Hs in Hdown. lra.
Qed.

Lemma ilog2_monotone (x y : Q) : 0 < x -> x <= y -> (ilog2 x <= ilog2 y)%Z.
Proof.
  intros Hx Hxy.
  destruct (ilog2_spec x Hx) as [Hx1 _].
  destruct (ilog2_spec y) as [_ Hy2]; [lra |].
  assert (H : 2 ^ ilog2 x < 2 ^ (ilog2 y + 1)) by lra.
  apply Qpower_lt_compat_l_inv in H; [lia | reflexivity].
Qed.

Lemma py_round_pow2 (k : Z) : (0 <= k)%Z -> Risk.py_round (2 ^ k) = (2 ^ k)%Z.
Proof.
  intros Hk. rewrite <- (py_round_integer (2 ^ k)). apply Z.le_antisymm;
    apply py_round_monotone; change 2 with (inject_Z 2);
    rewrite Zpower_Qpower by done; apply Qle_refl.
Qed.

Lemma round_positive_nonneg (x : Q) : 0 < x -> 0 <= round_positive x.
Proof.
  intros Hx. unfold round_positive. pose proof (pow2_pos (ulp_exponent x)) as Hp.
  apply Qmult_le_0_compat; [| lra].
  change 0 with (inject_Z 0). rewrite <- Zle_Qle.
  rewrite <- (py_round_integer 0). apply py_round_monotone.
  apply Qle_shift_div_l; [exact Hp | change (inject_Z 0) with 0; lra].
Qed.

Lemma round_positive_monotone (x y : Q) :
  0 < x -> x <= y -> round_positive x <= round_positive y.
Proof.
  intros Hx Hxy. assert (Hy : 0 < y) by lra.
  pose proof (ilog2_monotone x y Hx Hxy) as Hl.
  destruct (ilog2_spec x Hx) as [_ Hx2].
  destruct (ilog2_spec y Hy) as [Hy1 _].
  unfold round_positive.
  set (ex := ulp_exponent x). set (ey := ulp_exponent y).
  pose proof (pow2_pos ex) as Hpx. pose proof (pow2_pos ey) as Hpy.
  assert (He : (ex <= ey)%Z) by (unfold ex, ey, ulp_exponent; lia).
  destruct (Z.eq_dec ex ey) as [E | N].
  - rewrite E. apply Qmult_le_compat_r; [| lra].
    rewrite <- Zle_Qle. apply py_round_monotone.
    apply Qmult_le_compat_r; [exact Hxy |].
    apply Qlt_le_weak, Qinv_lt_0_compat, Hpy.
  - assert (Hux : inject_Z (Risk.py_round (x / 2 ^ ex)) <= 2 ^ 53).
    { change (2 ^ 53) with (inject_Z (2 ^ 53)). rewrite <- Zle_Qle.
      rewrite <- (py_round_pow2 53) by lia. apply py_round_monotone.
      apply Qle_shift_div_r; [exact Hpx |]. rewrite <- pow2_add.
      apply Qlt_le_weak. eapply Qlt_le_trans; [exact Hx2 |].
      apply pow2_monotone. unfold ex, ulp_exponent. lia. }
    assert (Hly : 2 ^ 52 <= inject_Z (Risk.py_round (y / 2 ^ ey))).
    { change (2 ^ 52) with (inject_Z (2 ^ 52)). rewrite <- Zle_Qle.
      rewrite <- (py_round_pow2 52) by lia. apply py_round_monotone.
      apply Qle_shift_div_l; [exact Hpy |]. rewrite <- pow2_add.
      eapply Qle_trans; [| exact Hy1].
      apply pow2_monotone. unfold ex, ey, ulp_exponent in *. lia. }
    assert (Hstep : 2 * 2 ^ ex <= 2 ^ ey).
    { rewrite <- pow2_succ. apply pow2_monotone. lia. }
    change (2 ^ 53) with (2 * 2 ^ 52) in Hux.
    assert (H52 : 0 < 2 ^ 52) by reflexivity.
    set (a := inject_Z (Risk.py_round (x / 2 ^ ex))) in *.
    set (b := inject_Z (Risk.py_round (y / 2 ^ ey))) in *.
    set (px := 2 ^ ex) in *. set (py := 2 ^ ey) in *. set (c := 2 ^ 52) in *.
    clearbody a b px py c. nra.
Qed.

(** Rounding to binary64 never reverses an order. *)
Lemma binary64_monotone (x y : Q) : x <= y -> binary64 x <= binary64 y.
Proof.
  intros Hxy. unfold binary64.
  destruct (Qcompare_spec x 0) as [Ex | Lx | Gx];
    destruct (Qcompare_spec y 0) as [Ey | Ly | Gy]; try lra.
  - apply round_positive_nonneg, Gy.
  - pose proof (round_positive_nonneg (- x)). lra.
  - pose proof (round_positive_monotone (- y) (- x)). lra.
  - pose proof (round_positive_nonneg (- x)).
    pose proof (round_positive_nonneg y). lra.
  - by apply round_positive_monotone.
Qed.

End RoundingFacts.
(** ** Properties of the frame operations *)

Lemma has_column_is_Some (df : gmap string json) (c : string) :
  has_column df c = true ↔ is_Some (df !! c).
Proof.
  unfold has_column. destruct (df !! c) as [v |].
  - split; [intros _; by exists v | done].
  - split; [done | intros [v Hv]; discriminate].
Qed.

Lemma validate_all_present (df : gmap string json) :
  validate df = true ↔ ∀ c, c ∈ required_input_cols → is_Some (df !! c).
Proof.
  unfold validate. rewrite forallb_forall. split.
  - intros H c Hc. apply has_column_is_Some, H, list_elem_of_In, Hc.
  - intros H c Hc. apply has_column_is_Some, H, list_elem_of_In, Hc.
Qed.

Lemma validate_truthy (kvs : gmap string json) :
  validate kvs = true → truthy (JObj kvs) = true.
Proof.
  intros H. simpl. apply negb_true_iff, bool_decide_eq_false.
  intros Hsize. apply map_size_empty_iff in Hsize. subst kvs.
  apply validate_all_present with (c := "soil_type") in H.
  - destruct H as [v Hv]. by rewrite lookup_empty in Hv.
  - set_solver.
Qed.

Lemma select_ext (df1 df2 : gmap string json) (cols : list string) :
  (∀ c, c ∈ cols → df1 !! c = df2 !! c) → select df1 cols = select df2 cols.
Proof.
  induction cols as [| c cols IH]; intros H; simpl; [done |].
  rewrite (H c) by set_solver. rewrite IH; [done |].
  intros c' Hc'. apply H. set_solver.
Qed.

Lemma select_labels (df : gmap string json) (cols : list string) (r : row) :
  select df cols = inr r → labels r = cols.
Proof.
  revert r. induction cols as [| c cols IH]; intros r; simpl.
  - by intros [= <-].
  - destruct (df !! c) as [v |]; [| done].
    destruct (select df cols) as [e | r']; [done |].
    intros [= <-]. unfold labels in *. simpl. f_equal. by apply IH.
Qed.

Lemma select_present (df : gmap string json) (cols : list string) :
  (∀ c, c ∈ cols → is_Some (df !! c)) → ∃ r, select df cols = inr r.
Proof.
  induction cols as [| c cols IH]; intros H; simpl; [by eexists |].
  destruct (H c) as [v ->]; [set_solver |].
  destruct IH as [r ->]; [intros c' Hc'; apply H; set_solver |].
  by eexists.
Qed.

Lemma labels_zip (names : list string) (values : list json) :
  length values = length names → labels (zip names values) = names.
Proof. intros H. unfold labels. apply fst_zip. lia. Qed.

Lemma cell_not_label (name : string) (r : row) :
  name ∉ labels r → cell name r = None.
Proof.
  induction r as [| [l v] r IH]; simpl; [done |].
  unfold labels. simpl. intros H. apply not_elem_of_cons in H as [Hl Hr].
  rewrite decide_False by done. by apply IH.
Qed.

Lemma take_columns_length (r : row) (columns : list string) (fill : json) :
  length (take_columns r columns fill) = length columns.
Proof. unfold take_columns. by rewrite length_fmap. Qed.

Lemma take_columns_labels (r : row) (columns : list string) (fill : json) :
  labels (take_columns r columns fill) = columns.
Proof.
  unfold labels, take_columns. rewrite <- list_fmap_compose.
  induction columns as [| c cs IH]; simpl; [done | by f_equal].
Qed.

Lemma take_columns_lookup (r : row) (columns : list string) (fill : json)
    (i : nat) (name : string) :
  columns !! i = Some name →
  take_columns r columns fill !! i = Some (name, default fill (cell name r)).
Proof. intros H. unfold take_columns. by rewrite list_lookup_fmap, H. Qed.

(** Taking the columns of a row with unique labels, under its own labels,
    rebuilds the row. *)
Lemma take_columns_self (r : row) (fill : json) :
  NoDup (labels r) → take_columns r (labels r) fill = r.
Proof.
  induction r as [| [l v] r IH]; [done |].
  unfold labels. simpl. intros Hnd. apply NoDup_cons in Hnd as [Hl Hnd].
  unfold take_columns. simpl. rewrite decide_True by done. simpl. f_equal.
  rewrite <- (IH Hnd) at 2. unfold take_columns, labels.
  apply list_fmap_ext. intros i c Hc. simpl.
  rewrite decide_False; [done |].
  intros ->. apply Hl. by eapply list_elem_of_lookup_2.
Qed.

Lemma reindex_unique (r : row) (columns : list string) (fill : json) :
  NoDup (labels r) → reindex r columns fill = inr (take_columns r columns fill).
Proof.
  intros Hnd. unfold reindex. destruct (decide (labels r = columns)) as [<- | N].
  - by rewrite take_columns_self.
  - by rewrite decide_True.
Qed.

Lemma reindex_same (r : row) (fill : json) : reindex r (labels r) fill = inr r.
Proof. unfold reindex. by rewrite decide_True. Qed.


Lemma cell_elem_of (name : string) (r : row) (v : json) :
  cell name r = Some v → (name, v) ∈ r.
Proof.
  induction r as [| [l w] r IH]; simpl; [done |].
  destruct (decide (l = name)) as [-> | N].
  - intros [= ->]. apply elem_of_cons. by left.
  - intros H. apply elem_of_cons. right. by apply IH.
Qed.

Lemma cell_is_Some (name : string) (r : row) :
  name ∈ labels r → is_Some (cell name r).
Proof.
  induction r as [| [l w] r IH]; unfold labels; simpl.
  - by intros H%elem_of_nil.
  - intros H. destruct (decide (l = name)) as [-> | N]; [by eexists |].
    apply IH. apply elem_of_cons in H as [-> | H]; [done | exact H].
Qed.

Lemma cell_unique (name : string) (r : row) (v : json) :
  NoDup (labels r) → (name, v) ∈ r → cell name r = Some v.
Proof.
  induction r as [| [l w] r IH]; unfold labels; simpl.
  - by intros _ H%elem_of_nil.
  - intros Hnd H. apply NoDup_cons in Hnd as [Hl Hnd].
    apply elem_of_cons in H as [[= <- <-] | H].
    + by rewrite decide_True.
    + rewrite decide_False; [by apply IH |].
      intros ->. apply Hl. apply list_elem_of_fmap. by exists (name, v).
Qed.

Lemma reindex_labels (r r' : row) (columns : list string) (fill_value : json) :
  reindex r columns fill_value = inr r' → labels r' = columns.
Proof.
  unfold reindex. destruct (decide (labels r = columns)) as [E | N].
  - by intros [= <-].
  - destruct (decide (NoDup (labels r))); [| done].
    intros [= <-]. apply take_columns_labels.
Qed.

(** ** Properties of the handler *)

(** Membership in a list written out. *)
Ltac in_list :=
  unfold required_input_cols, categorical_cols, numerical_cols;
  rewrite ?elem_of_cons, ?elem_of_nil; intuition congruence.

Lemma categorical_required (c : string) :
  c ∈ categorical_cols → c ∈ required_input_cols.
Proof. in_list. Qed.

Lemma numerical_required (c : string) :
  c ∈ numerical_cols → c ∈ required_input_cols.
Proof. in_list. Qed.

Lemma validate_ext (df1 df2 : gmap string json) :
  (∀ c, c ∈ required_input_cols → df1 !! c = df2 !! c) →
  validate df1 = validate df2.
Proof.
  intros H. unfold validate, required_input_cols, has_column. simpl.
  by rewrite !H by in_list.
Qed.

Lemma try_block_valid (m : Model) (enc : Encoder) (columns : list string)
    (kvs : gmap string json) :
  validate kvs = true →
  try_block m enc columns (JObj kvs) = preprocess enc columns kvs ≫= predict m.
Proof.
  intros Hv. unfold try_block. rewrite (validate_truthy _ Hv). simpl.
  by rewrite Hv.
Qed.

Lemma preprocess_ext (enc : Encoder) (columns : list string)
    (df1 df2 : gmap string json) :
  (∀ c, c ∈ required_input_cols → df1 !! c = df2 !! c) →
  preprocess enc columns df1 = preprocess enc columns df2.
Proof.
  intros H. unfold preprocess.
  rewrite (select_ext df1 df2 categorical_cols)
    by (intros c Hc; apply H, categorical_required, Hc).
  by rewrite (select_ext df1 df2 numerical_cols)
    by (intros c Hc; apply H, numerical_required, Hc).
Qed.

(** With both artifacts loaded and a complete record, the steps of
    [preprocess] that succeed leave the reindexing of the concatenated
    row. *)
Lemma preprocess_steps (enc : Encoder) (columns : list string)
    (df : gmap string json) (cats nums : row) (encoded : list Q)
    (names : list string) :
  select df categorical_cols = inr cats →
  select df numerical_cols = inr nums →
  transform enc cats = inr encoded →
  get_feature_names_out enc categorical_cols = inr names →
  length encoded = length names →
  preprocess enc columns df =
    ([Transform cats; GetFeatureNamesOut categorical_cols],
     reindex (nums ++ zip names (JNum <$> encoded)) columns (JNum 0)).
Proof.
  intros Hc Hn Ht Hg Hl. unfold preprocess, mbind, M_bind, lift, call.
  rewrite Hc. cbn -[select reindex]. rewrite Ht. cbn -[select reindex].
  rewrite Hg. cbn -[select reindex].
  unfold DataFrame_of_values. rewrite decide_True by done.
  rewrite Hn. unfold concat_columns. cbn -[reindex].
  by destruct (reindex _ _ _).
Qed.

Lemma combined_labels (nums : row) (names : list string) (encoded : list Q)
    (df : gmap string json) :
  select df numerical_cols = inr nums →
  length encoded = length names →
  labels (nums ++ zip names (JNum <$> encoded)) = numerical_cols ++ names.
Proof.
  intros Hn Hl. unfold labels. rewrite fmap_app. f_equal.
  - by apply select_labels in Hn.
  - apply labels_zip. by rewrite length_fmap.
Qed.


(** ** The risk normaliser: contract and monotonicity *)

Lemma clamp_cases_binary64 (x : float) :
  (PrimFloat.ltb x 100 = true ∧ PrimFloat.ltb 0 x = true ∧ Binary64.clamp x = x) ∨
  (PrimFloat.ltb x 100 = true ∧ PrimFloat.ltb 0 x = false ∧
   Binary64.clamp x = 0%float) ∨
  (PrimFloat.ltb x 100 = false ∧ Binary64.clamp x = 100%float).
Proof.
  unfold Binary64.clamp, Binary64.py_min.
  destruct (PrimFloat.ltb x 100) eqn:H100.
  - unfold Binary64.py_max. destruct (PrimFloat.ltb 0 x) eqn:H0; auto.
  - right. right. split; [done |]. by vm_compute.
Qed.

Lemma round_half_even_nearest (m : positive) (e : Z) :
  Qabs (inject_Z (Zpos m) * 2 ^ e - inject_Z (Binary64.round_half_even m e)) <= 1 # 2.
Proof.
  apply Qabs_Qle_condition. destruct e as [| p | p]; unfold Binary64.round_half_even.
  - change (2 ^ 0) with 1. split; ring_simplify; discriminate.
  - rewrite inject_Z_mult, (pow2_inject_Z (Zpos p)) by lia.
    split; ring_simplify; discriminate.
  - assert (Hd : (0 < 2 ^ Zpos p)%Z) by (apply Z.pow_pos_nonneg; lia).
    pose proof (Z.div_mod (Zpos m) (2 ^ Zpos p) ltac:(lia)) as Hdm.
    pose proof (Z.mod_pos_bound (Zpos m) (2 ^ Zpos p) Hd) as [Hr0 Hr1].
    change (Zneg p) with (- Zpos p)%Z.
    rewrite Qpower_opp, (pow2_inject_Z (Zpos p)) by lia.
    set (d := (2 ^ Zpos p)%Z) in *.
    set (q := (Zpos m / d)%Z) in *. set (r := (Zpos m mod d)%Z) in *.
    assert (HD : 0 < inject_Z d) by (change 0 with (inject_Z 0); by rewrite <- Zlt_Qlt).
    assert (HM : inject_Z (Zpos m) == inject_Z d * inject_Z q + inject_Z r)
      by (rewrite <- inject_Z_mult, <- inject_Z_plus, <- Hdm; reflexivity).
    assert (HR0 : 0 <= inject_Z r) by (change 0 with (inject_Z 0); by rewrite <- Zle_Qle).
    assert (Hx : inject_Z (Zpos m) * / inject_Z d * inject_Z d == inject_Z (Zpos m))
      by (field; lra).
    set (x := inject_Z (Zpos m) * / inject_Z d) in *.
    destruct (2 * r ?= d)%Z eqn:Hc.
    + apply Z.compare_eq in Hc.
      assert (H2 : 2 * inject_Z r == inject_Z d)
        by (change 2 with (inject_Z 2); rewrite <- inject_Z_mult, Hc; reflexivity).
      destruct (Z.even q); rewrite ?inject_Z_plus; change (inject_Z 1) with 1;
        set (D := inject_Z d) in *; set (Qq := inject_Z q) in *;
        set (R := inject_Z r) in *; set (Mm := inject_Z (Zpos m)) in *;
        clearbody x D Qq R Mm; nra.
    + apply Z.compare_lt_iff in Hc.
      assert (H2 : 2 * inject_Z r < inject_Z d)
        by (change 2 with (inject_Z 2); rewrite <- inject_Z_mult, <- Zlt_Qlt; exact Hc).
      set (D := inject_Z d) in *; set (Qq := inject_Z q) in *;
        set (R := inject_Z r) in *; set (Mm := inject_Z (Zpos m)) in *;
        clearbody x D Qq R Mm; nra.
    + apply Z.compare_gt_iff in Hc.
      assert (H2 : inject_Z d < 2 * inject_Z r)
        by (change 2 with (inject_Z 2); rewrite <- inject_Z_mult, <- Zlt_Qlt; exact Hc).
      assert (HR1 : inject_Z r < inject_Z d) by (by rewrite <- Zlt_Qlt).
      rewrite inject_Z_plus. change (inject_Z 1) with 1.
      set (D := inject_Z d) in *; set (Qq := inject_Z q) in *;
        set (R := inject_Z r) in *; set (Mm := inject_Z (Zpos m)) in *;
        clearbody x D Qq R Mm; nra.
Qed.

(** [round] on a float gives an integer within one half of its value. *)
Lemma py_round_nearest_binary64 (x : float) (k : Z) :
  Binary64.py_round x = Some k → Qabs (Binary64.value x - inject_Z k) <= 1 # 2.
Proof.
  unfold Binary64.py_round, Binary64.value.
  destruct (Prim2SF x) as [s | s | | s m e]; try discriminate.
  - intros [= <-]. discriminate.
  - intros [= <-]. pose proof (round_half_even_nearest m e) as H.
    destruct s; [| exact H].
    apply Qabs_Qle_condition in H. apply Qabs_Qle_condition.
    rewrite inject_Z_opp.
    set (a := inject_Z (Zpos m)) in *. set (b := 2 ^ e) in *.
    set (c := inject_Z (Binary64.round_half_even m e)) in *.
    clearbody a b c. split; nra.
Qed.

Lemma binary64_span_positive :
  0 < Rounding.binary64 (Rounding.binary64 (2 # 10) - - Rounding.binary64 (2 # 10)).
Proof. by vm_compute. Qed.


(** C1.  On binary64 floats, as the handler computes: [min_score] and
    [max_score] are the floats nearest to -0.2 and 0.2; a score [s] is
    mapped to [100 * (max_score - s) / (max_score - min_score)], which is
    clamped (kept when strictly between 0 and 100, else replaced by 0 or
    by 100) and rounded to an integer within one half of it; the result is
    an integer of [0, 100] for every score; and [normalize] sends -0.2 to
    100, 0.2 to 0, 0.0 to 50, -10.0 to 100 and 10.0 to 0. *)
Theorem normalize_contract :
  (Binary64.min_score = (- 0.2)%float ∧ Binary64.max_score = 0.2%float ∧
   Binary64.value Binary64.max_score == Rounding.binary64 (2 # 10) ∧
   Binary64.value Binary64.min_score == - Rounding.binary64 (2 # 10)) ∧
  (∀ s, Binary64.normalize s =
        Binary64.py_round
          (Binary64.clamp
             (100 * (Binary64.max_score - s)
              / (Binary64.max_score - Binary64.min_score))%float)) ∧
  (∀ x, (PrimFloat.ltb x 100 = true ∧ PrimFloat.ltb 0 x = true ∧
         Binary64.clamp x = x) ∨
        (PrimFloat.ltb x 100 = true ∧ PrimFloat.ltb 0 x = false ∧
         Binary64.clamp x = 0%float) ∨
        (PrimFloat.ltb x 100 = false ∧ Binary64.clamp x = 100%float)) ∧
  (∀ x k, Binary64.py_round x = Some k →
          Qabs (Binary64.value x - inject_Z k) <= 1 # 2) ∧
  (∀ s, ∃ k, Binary64.normalize s = Some k ∧ (0 <= k <= 100)%Z) ∧
  (Binary64.normalize (-0.2)%float = Some 100%Z ∧
   Binary64.normalize 0.2%float = Some 0%Z ∧
   Binary64.normalize 0.0%float = Some 50%Z ∧
   Binary64.normalize (-10.0)%float = Some 100%Z ∧
   Binary64.normalize 10.0%float = Some 0%Z).
Proof.
  split; [by vm_compute |].
  split; [reflexivity |].
  split; [apply clamp_cases_binary64 |].
  split; [apply py_round_nearest_binary64 |].
  split; [intros s; apply clamp_round_total |].
  by vm_compute.
Qed.


(** ** Responses of the handler *)

Lemma predict_raised (m : Model) (X : row) (e : exn) :
  decision_function m X = inl e → predict m X = ([DecisionFunction X], inl e).
Proof. intros H. unfold predict, mbind, M_bind, call. by rewrite H. Qed.

(** The rounding of line 91 never raises: a score always gives a 200. *)
Lemma predict_scored (m : Model) (X : row) (score : float) :
  decision_function m X = inr score →
  ∃ risk, Binary64.normalize score = Some risk ∧ (0 <= risk <= 100)%Z ∧
          predict m X =
            ([DecisionFunction X],
             inr {| body := Result risk score; status := 200 |}).
Proof.
  intros H.
  destruct (clamp_round_total (Binary64.risk_percentage score))
    as (risk & Hr & Hrange).
  exists risk. split; [exact Hr |]. split; [exact Hrange |].
  unfold predict, mbind, M_bind, call. rewrite H.
  unfold Binary64.normalize. by rewrite Hr.
Qed.

Lemma handle_predict_loaded (g : Globals) (m : Model) (enc : Encoder)
    (input_data : json) :
  model g = Some m → encoder g = Some enc →
  handle_predict g input_data =
    match try_block m enc (model_input_columns g) input_data with
    | (t, inr response) => (t, response)
    | (t, inl e) => (t, jsonify_error ("Prediction failed: " +:+ e) 500)
    end.
Proof. intros Hm He. unfold handle_predict. by rewrite Hm, He. Qed.

Lemma handle_predict_unloaded (g : Globals) (input_data : json) :
  model g = None ∨ encoder g = None →
  handle_predict g input_data =
    ([], jsonify_error "Model not loaded. Check server logs." 500).
Proof.
  unfold handle_predict. intros [-> | ->]; [done |]. by destruct (model g).
Qed.

Lemma load_failure (model_file : exn + Model) (encoder_file : exn + Encoder) :
  (∃ e, model_file = inl e) ∨ (∃ e, encoder_file = inl e) ∨
  (∃ enc e, encoder_file = inr enc ∧
            get_feature_names_out enc categorical_cols = inl e) →
  load model_file encoder_file = load_failed.
Proof.
  intros [[e ->] | [[e ->] | (enc & e & -> & He)]]; [done | |].
  - by destruct model_file.
  - destruct model_file; [done |]. simpl.
    unfold categorical_cols in He. by rewrite He.
Qed.

(** A response returned from inside the [try] block is a 400 or a 200. *)
Lemma try_block_status (m : Model) (enc : Encoder) (columns : list string)
    (input_data : json) (t : list Event) (response : Response) :
  try_block m enc columns input_data = (t, inr response) →
  status response = 400%nat ∨ status response = 200%nat.
Proof.
  unfold try_block.
  destruct (negb (truthy input_data)); [intros [= _ <-]; by left |].
  destruct (negb (validate _)); [intros [= _ <-]; by left |].
  unfold mbind, M_bind.
  destruct (preprocess _ _ _) as [t1 [e | fv]]; [done |].
  unfold predict, mbind, M_bind, call.
  destruct (decision_function m fv) as [e | score]; [done |].
  destruct (Binary64.normalize score); simpl; [intros [= _ <-]; by right | done].
Qed.

(** C8. If the encoder or the model failed to load at startup (or the
    column names could not be derived from the encoder), every later call
    of the handler, on every input, answers the dedicated error "Model not
    loaded. Check server logs." with status 500, having called neither
    artifact; no call with both artifacts loaded gives that response. *)
Theorem unloaded_artifacts_fail_fast (model_file : exn + Model)
    (encoder_file : exn + Encoder) (input_data : json) :
  (∃ e, model_file = inl e) ∨ (∃ e, encoder_file = inl e) ∨
  (∃ enc e, encoder_file = inr enc ∧
            get_feature_names_out enc categorical_cols = inl e) →
  handle_predict (load model_file encoder_file) input_data =
    ([], jsonify_error "Model not loaded. Check server logs." 500) ∧
  ∀ g m enc input_data',
    model g = Some m → encoder g = Some enc →
    (handle_predict g input_data').2 ≠
      jsonify_error "Model not loaded. Check server logs." 500.
Proof.
  intros Hfail. split.
  - rewrite (load_failure _ _ Hfail). apply handle_predict_unloaded. by left.
  - intros g m enc input' Hm He. rewrite (handle_predict_loaded g m enc) by done.
    destruct (try_block _ _ _ _) as [t [e | response]] eqn:Hb; simpl.
    + intros [= H].
    + apply try_block_status in Hb. intros ->. simpl in Hb. by destruct Hb.
Qed.

Lemma unloaded_artifacts_fail_fast_witness :
  handle_predict
    (load (inl "[Errno 2] No such file or directory")
          (inr (one_hot_encoder Fixture.fitted_categories)))
    (JObj Fixture.request) =
  ([], jsonify_error "Model not loaded. Check server logs." 500).
Proof.
  refine (proj1 (unloaded_artifacts_fail_fast _ _ _ _)).
  left. by eexists.
Defined.

(** C10. The output depends only on the six required fields: two records
    that agree on them, the first being complete, make the handler call
    the artifacts on the same frames and return the same response (the
    same [risk_percentage] and [raw_anomaly_score]), whatever other keys
    they hold. *)
Theorem extra_keys_ignored (g : Globals) (kvs1 kvs2 : gmap string json) :
  validate kvs1 = true →
  (∀ c, c ∈ required_input_cols → kvs1 !! c = kvs2 !! c) →
  handle_predict g (JObj kvs1) = handle_predict g (JObj kvs2).
Proof.
  intros Hv Hagree.
  assert (Hv2 : validate kvs2 = true) by by rewrite <- (validate_ext _ _ Hagree).
  unfold handle_predict. destruct (model g) as [m |]; [| done].
  destruct (encoder g) as [enc |]; [| done].
  rewrite !try_block_valid by done.
  by rewrite (preprocess_ext enc _ kvs1 kvs2 Hagree).
Qed.

Lemma extra_keys_ignored_witness :
  Fixture.request_extra !! "farm_id" = Some (JStr "F-17") ∧
  Fixture.request !! "farm_id" = None ∧
  handle_predict Fixture.loaded (JObj Fixture.request_extra) =
  handle_predict Fixture.loaded (JObj Fixture.request).
Proof.
  split; [reflexivity |]. split; [reflexivity |].
  apply extra_keys_ignored; [reflexivity |].
  intros c Hc. unfold Fixture.request_extra.
  apply lookup_insert_ne. intros <-. revert Hc. in_list.
Defined.

(** ** Validation *)

Lemma validate_false_missing (kvs : gmap string json) :
  (∃ c, c ∈ required_input_cols ∧ kvs !! c = None) → validate kvs = false.
Proof.
  intros (c & Hc & Hnone). apply not_true_is_false. intros Hv.
  destruct (proj1 (validate_all_present kvs) Hv c Hc) as [v Hsome].
  congruence.
Qed.

Lemma truthy_nonempty (kvs : gmap string json) :
  kvs ≠ ∅ → truthy (JObj kvs) = true.
Proof.
  intros Hne. simpl. apply negb_true_iff, bool_decide_eq_false.
  intros Hsize. by apply Hne, map_size_empty_iff.
Qed.

Lemma required_fields_named (c : string) :
  c ∈ required_input_cols → mentions missing_fields_message c = true.
Proof.
  unfold required_input_cols. rewrite !elem_of_cons, elem_of_nil.
  intros [-> | [-> | [-> | [-> | [-> | [-> | []]]]]]]; reflexivity.
Qed.

(** C4, as the handler has it.  With both artifacts loaded, every
    non-empty record missing at least one of the six required fields is
    answered, before any artifact is called, with status 400 and the message
    "Missing required input fields. Need: [...]" naming all six required
    fields; the empty record is answered with status 400 as well, under
    the message "No input data provided". *)
Theorem missing_fields_rejected (g : Globals) (m : Model) (enc : Encoder)
    (kvs : gmap string json) :
  model g = Some m → encoder g = Some enc →
  (∃ c, c ∈ required_input_cols ∧ kvs !! c = None) →
  (kvs ≠ ∅ →
   handle_predict g (JObj kvs) = ([], jsonify_error missing_fields_message 400)) ∧
  (kvs = ∅ →
   handle_predict g (JObj kvs) = ([], jsonify_error "No input data provided" 400)) ∧
  status (handle_predict g (JObj kvs)).2 = 400%nat ∧
  (∀ c, c ∈ required_input_cols → mentions missing_fields_message c = true).
Proof.
  intros Hm He Hmiss. rewrite (handle_predict_loaded g m enc) by done.
  pose proof (validate_false_missing kvs Hmiss) as Hv.
  assert (Hfull : kvs ≠ ∅ →
    try_block m enc (model_input_columns g) (JObj kvs) =
      ([], inr (jsonify_error missing_fields_message 400))).
  { intros Hne. unfold try_block. rewrite (truthy_nonempty _ Hne). simpl.
    by rewrite Hv. }
  assert (Hempty : kvs = ∅ →
    try_block m enc (model_input_columns g) (JObj kvs) =
      ([], inr (jsonify_error "No input data provided" 400))).
  { by intros ->. }
  split; [intros Hne; by rewrite Hfull |].
  split; [intros Heq; by rewrite Hempty |].
  split; [| apply required_fields_named].
  destruct (decide (kvs = ∅)) as [Heq | Hne];
    [by rewrite Hempty | by rewrite Hfull].
Qed.

Lemma missing_fields_rejected_witness :
  Fixture.request_no_season !! "season" = None ∧
  handle_predict Fixture.loaded (JObj Fixture.request_no_season) =
    ([], jsonify_error missing_fields_message 400).
Proof.
  split; [reflexivity |].
  refine (proj1 (missing_fields_rejected Fixture.loaded
                   (Fixture.constant_model 0.1)
                   (one_hot_encoder Fixture.fitted_categories)
                   Fixture.request_no_season eq_refl eq_refl _) _).
  - exists "season". split; [in_list | reflexivity].
  - intros H. apply (f_equal (λ kvs : gmap string json, kvs !! "soil_type")) in H.
    vm_compute in H. discriminate H.
Defined.

(** The empty record misses all six fields, and its answer names none. *)
Lemma empty_record_names_no_field :
  (∃ c, c ∈ required_input_cols ∧ (∅ : gmap string json) !! c = None) ∧
  handle_predict Fixture.loaded (JObj ∅) =
    ([], jsonify_error "No input data provided" 400) ∧
  forallb (mentions "No input data provided") required_input_cols = false.
Proof.
  split; [exists "soil_type"; split; [in_list | reflexivity] |].
  split; reflexivity.
Qed.

(** C5, as the handler has it.  Validation passes a record exactly when
    all six required keys are present; the values are not looked at.  A
    record that passes goes on to preprocessing and scoring, one that does
    not is answered with a 400 without any call into the artifacts. *)
Theorem validation_checks_presence (kvs : gmap string json) :
  (validate kvs = true ↔ ∀ c, c ∈ required_input_cols → is_Some (kvs !! c)) ∧
  (∀ m enc columns,
     validate kvs = true →
     try_block m enc columns (JObj kvs) = preprocess enc columns kvs ≫= predict m) ∧
  (∀ m enc columns,
     validate kvs = false →
     ∃ msg, try_block m enc columns (JObj kvs) = ([], inr (jsonify_error msg 400))).
Proof.
  split; [apply validate_all_present |].
  split; [intros m enc columns; apply try_block_valid |].
  intros m enc columns Hv. unfold try_block.
  destruct (negb (truthy (JObj kvs))); [by eexists |].
  simpl. rewrite Hv. by eexists.
Qed.

Lemma validation_checks_presence_witness :
  Fixture.request_null_soil !! "soil_type" = Some JNull ∧
  try_block (Fixture.constant_model 0.1)
            (one_hot_encoder Fixture.fitted_categories) []
            (JObj Fixture.request_null_soil) =
    preprocess (one_hot_encoder Fixture.fitted_categories) []
               Fixture.request_null_soil
      ≫= predict (Fixture.constant_model 0.1).
Proof.
  split; [reflexivity |].
  apply (proj1 (proj2 (validation_checks_presence Fixture.request_null_soil))).
  reflexivity.
Defined.

(** A record holding all six keys, one with a null value, passes
    validation and is scored. *)
Lemma null_value_passes_validation :
  Fixture.request_null_soil !! "soil_type" = Some JNull ∧
  (∀ c, c ∈ required_input_cols → is_Some (Fixture.request_null_soil !! c)) ∧
  validate Fixture.request_null_soil = true ∧
  (handle_predict Fixture.loaded (JObj Fixture.request_null_soil)).2 =
    {| body := Result 25 0.1; status := 200 |}.
Proof.
  split; [reflexivity |].
  split; [by apply validate_all_present |].
  split; reflexivity.
Qed.

(** ** Failures of the artifacts *)

Lemma handle_predict_valid (g : Globals) (m : Model) (enc : Encoder)
    (kvs : gmap string json) :
  model g = Some m → encoder g = Some enc → validate kvs = true →
  handle_predict g (JObj kvs) =
    match preprocess enc (model_input_columns g) kvs ≫= predict m with
    | (t, inr response) => (t, response)
    | (t, inl e) => (t, jsonify_error ("Prediction failed: " +:+ e) 500)
    end.
Proof.
  intros Hm He Hv. rewrite (handle_predict_loaded g m enc) by done.
  by rewrite try_block_valid.
Qed.

(** C7, as the handler has it.  On a complete record, a failure of the
    encoder's [transform] and a failure of the model's scoring call are
    answered by the one [except] clause: status 500 and the message
    "Prediction failed: " followed by the text of the exception raised.
    The response has no field telling the two apart. *)
Theorem artifact_failures_share_response (g : Globals) (m : Model)
    (enc : Encoder) (kvs : gmap string json) (cause : exn) :
  model g = Some m → encoder g = Some enc → validate kvs = true →
  (∀ cats,
     select kvs categorical_cols = inr cats →
     transform enc cats = inl cause →
     handle_predict g (JObj kvs) =
       ([Transform cats], jsonify_error ("Prediction failed: " +:+ cause) 500)) ∧
  (∀ t features_final,
     preprocess enc (model_input_columns g) kvs = (t, inr features_final) →
     decision_function m features_final = inl cause →
     handle_predict g (JObj kvs) =
       (t ++ [DecisionFunction features_final],
        jsonify_error ("Prediction failed: " +:+ cause) 500)).
Proof.
  intros Hm He Hv. rewrite (handle_predict_valid g m enc) by done. split.
  - intros cats Hc Ht. unfold preprocess, mbind, M_bind, lift, call.
    rewrite Hc. cbn -[select reindex]. by rewrite Ht.
  - intros t fv Hp Hd. rewrite Hp. unfold predict, mbind, M_bind, call.
    by rewrite Hd.
Qed.

Lemma artifact_failures_share_response_witness :
  handle_predict (Fixture.loaded_raising_encoder "boom") (JObj Fixture.request) =
    ([Transform [("soil_type", JStr "loam"); ("crop_type", JStr "corn");
                 ("tillage_type", JStr "no-till"); ("season", JStr "spring")]],
     jsonify_error "Prediction failed: boom" 500) ∧
  handle_predict (Fixture.loaded_raising_model "boom") (JObj Fixture.request) =
    ([Transform [("soil_type", JStr "loam"); ("crop_type", JStr "corn");
                 ("tillage_type", JStr "no-till"); ("season", JStr "spring")];
      GetFeatureNamesOut categorical_cols] ++
     [DecisionFunction
        [("temp_7day_avg_f", JNum 68); ("precip_7day_total_in", JNum 1.2);
         ("soil_type_clay", JNum 0); ("soil_type_loam", JNum 1);
         ("crop_type_corn", JNum 1); ("crop_type_wheat", JNum 0);
         ("tillage_type_conventional", JNum 0);
         ("tillage_type_no-till", JNum 1);
         ("season_fall", JNum 0); ("season_spring", JNum 1)]],
     jsonify_error "Prediction failed: boom" 500).
Proof.
  split.
  { refine (proj1 (artifact_failures_share_response
                     (Fixture.loaded_raising_encoder "boom")
                     (Fixture.constant_model 0.1)
                     (Fixture.raising_encoder "boom")
                     Fixture.request "boom" eq_refl eq_refl eq_refl) _ _ _);
      reflexivity. }
  refine (proj2 (artifact_failures_share_response
                   (Fixture.loaded_raising_model "boom")
                   (Fixture.raising_model "boom")
                   (one_hot_encoder Fixture.fitted_categories)
                   Fixture.request "boom" eq_refl eq_refl eq_refl) _ _ _ _);
    reflexivity.
Defined.

(** An encoder failure and a model failure with the same cause give the
    same response. *)
Lemma encoder_and_model_failure_same_response :
  (∃ X, transform (Fixture.raising_encoder "boom") X = inl "boom" ∧
        (handle_predict (Fixture.loaded_raising_encoder "boom")
                        (JObj Fixture.request)).1 = [Transform X]) ∧
  (∃ t X, decision_function (Fixture.raising_model "boom") X = inl "boom" ∧
          (handle_predict (Fixture.loaded_raising_model "boom")
                          (JObj Fixture.request)).1 = t ++ [DecisionFunction X]) ∧
  (handle_predict (Fixture.loaded_raising_encoder "boom") (JObj Fixture.request)).2 =
  (handle_predict (Fixture.loaded_raising_model "boom") (JObj Fixture.request)).2.
Proof.
  split; [eexists; split; reflexivity |].
  split; [eexists [_; _], _; split; reflexivity |].
  reflexivity.
Qed.

(** ** Feature assembly *)

(** C9. Reindexing a row whose column labels are exactly the model input
    columns, in that order, returns the row unchanged; when the labels are
    distinct, picking the columns one by one rebuilds the same row. *)
Theorem reindex_idempotent (r : row) (columns : list string) (fill_value : json) :
  labels r = columns →
  reindex r columns fill_value = inr r ∧
  (NoDup columns → take_columns r columns fill_value = r).
Proof.
  intros <-. split; [apply reindex_same |]. apply take_columns_self.
Qed.

Lemma reindex_idempotent_witness :
  reindex [("temp_7day_avg_f", JNum 68); ("precip_7day_total_in", JNum 1.2);
           ("soil_type_clay", JNum 0); ("soil_type_loam", JNum 1)]
          ["temp_7day_avg_f"; "precip_7day_total_in";
           "soil_type_clay"; "soil_type_loam"] (JNum 0) =
    inr [("temp_7day_avg_f", JNum 68); ("precip_7day_total_in", JNum 1.2);
         ("soil_type_clay", JNum 0); ("soil_type_loam", JNum 1)] ∧
  take_columns
    [("temp_7day_avg_f", JNum 68); ("precip_7day_total_in", JNum 1.2);
     ("soil_type_clay", JNum 0); ("soil_type_loam", JNum 1)]
    ["temp_7day_avg_f"; "precip_7day_total_in";
     "soil_type_clay"; "soil_type_loam"] (JNum 0) =
    [("temp_7day_avg_f", JNum 68); ("precip_7day_total_in", JNum 1.2);
     ("soil_type_clay", JNum 0); ("soil_type_loam", JNum 1)].
Proof.
  destruct (reindex_idempotent
              [("temp_7day_avg_f", JNum 68); ("precip_7day_total_in", JNum 1.2);
               ("soil_type_clay", JNum 0); ("soil_type_loam", JNum 1)]
              ["temp_7day_avg_f"; "precip_7day_total_in";
               "soil_type_clay"; "soil_type_loam"] (JNum 0) eq_refl)
    as [Hsame Hpick].
  split; [exact Hsame |]. apply Hpick.
  repeat (apply NoDup_cons_2; [in_list |]). apply NoDup_nil_2.
Defined.

(** C2. For a complete record on which the encoder answers as many values
    as it has output names, these names being distinct from each other and
    from the two numerical names, preprocessing yields a feature vector of
    exactly the length of the model input columns, labelled by them in
    order; its entry at position [i] is the value the concatenated row
    holds under the [i]-th model input column, and 0 when the row has no
    such column.  This holds for any model input columns, whatever the
    order of the row and whichever columns it lacks. *)
Theorem feature_vector_in_model_order (enc : Encoder) (columns : list string)
    (kvs : gmap string json) (cats nums : row) (encoded : list Q)
    (names : list string) :
  validate kvs = true →
  select kvs categorical_cols = inr cats →
  select kvs numerical_cols = inr nums →
  transform enc cats = inr encoded →
  get_feature_names_out enc categorical_cols = inr names →
  length encoded = length names →
  NoDup (numerical_cols ++ names) →
  ∃ features_final,
    (preprocess enc columns kvs).2 = inr features_final ∧
    length features_final = length columns ∧
    labels features_final = columns ∧
    ∀ i name,
      columns !! i = Some name →
      features_final !! i =
        Some (name, default (JNum 0)
                      (cell name (nums ++ zip names (JNum <$> encoded)))).
Proof.
  intros _ Hc Hn Ht Hg Hl Hnd.
  rewrite (preprocess_steps enc columns kvs cats nums encoded names) by done.
  simpl. rewrite reindex_unique
    by (by rewrite (combined_labels nums names encoded kvs)).
  eexists. split; [done |].
  split; [apply take_columns_length |].
  split; [apply take_columns_labels |].
  intros i name Hi. by apply take_columns_lookup.
Qed.

Lemma feature_vector_in_model_order_witness :
  ∃ features_final,
    (preprocess (one_hot_encoder Fixture.fitted_categories)
                ["season_spring"; "temp_7day_avg_f"; "soil_type_peat";
                 "precip_7day_total_in"]
                Fixture.request).2 = inr features_final ∧
    length features_final = 4%nat ∧
    features_final !! 0%nat = Some ("season_spring", JNum 1) ∧
    features_final !! 2%nat = Some ("soil_type_peat", JNum 0).
Proof.
  destruct (feature_vector_in_model_order
              (one_hot_encoder Fixture.fitted_categories)
              ["season_spring"; "temp_7day_avg_f"; "soil_type_peat";
               "precip_7day_total_in"]
              Fixture.request
              [("soil_type", JStr "loam"); ("crop_type", JStr "corn");
               ("tillage_type", JStr "no-till"); ("season", JStr "spring")]
              [("temp_7day_avg_f", JNum 68); ("precip_7day_total_in", JNum 1.2)]
              [0; 1; 1; 0; 0; 1; 0; 1]
              ["soil_type_clay"; "soil_type_loam"; "crop_type_corn";
               "crop_type_wheat"; "tillage_type_conventional";
               "tillage_type_no-till"; "season_fall"; "season_spring"]
              eq_refl eq_refl eq_refl eq_refl eq_refl eq_refl)
    as (features_final & Hp & Hlen & _ & Hat).
  - unfold numerical_cols. simpl.
    repeat (apply NoDup_cons_2; [in_list |]). apply NoDup_nil_2.
  - exists features_final. split; [exact Hp |]. split; [exact Hlen |].
    split; [exact (Hat 0%nat _ eq_refl) | exact (Hat 2%nat _ eq_refl)].
Defined.

(** ** Categories that were not fitted *)

Lemma one_hot_slots_length (fitted : list string) (value : option string) :
  length (one_hot_slots fitted value) = length fitted.
Proof. unfold one_hot_slots. by rewrite length_fmap. Qed.

Lemma slot_names_length (feature : string) (fitted : list string) :
  length (slot_names feature fitted) = length fitted.
Proof. unfold slot_names. by rewrite length_fmap. Qed.

Lemma feature_block_labels (feature : string) (fitted : list string)
    (value : option string) :
  labels (feature_block feature fitted value) = slot_names feature fitted.
Proof.
  unfold feature_block. apply labels_zip.
  by rewrite length_fmap, one_hot_slots_length, slot_names_length.
Qed.

(** A cell of the block of a feature is the slot of a fitted category: 1
    when the value is that category, else 0. *)
Lemma feature_block_elem (feature : string) (fitted : list string)
    (value : option string) (l : string) (v : json) :
  (l, v) ∈ feature_block feature fitted value →
  ∃ c, c ∈ fitted ∧ l = feature +:+ "_" +:+ c ∧
       v = JNum (if decide (value = Some c) then 1 else 0).
Proof.
  unfold feature_block, slot_names, one_hot_slots.
  induction fitted as [| c fitted IH]; simpl.
  - by intros H%elem_of_nil.
  - intros [[= -> ->] | H]%elem_of_cons.
    + exists c. split; [apply elem_of_cons; by left | done].
    + destruct (IH H) as (c' & Hc' & -> & ->).
      exists c'. split; [apply elem_of_cons; by right | done].
Qed.

Lemma slot_names_NoDup (feature : string) (fitted : list string) :
  NoDup fitted → NoDup (slot_names feature fitted).
Proof.
  intros H. unfold slot_names. apply NoDup_fmap_2; [| exact H].
  intros c1 c2 Heq. apply (inj (String.app feature)) in Heq.
  by apply (inj (String.app "_")) in Heq.
Qed.

Lemma slot_names_elem (feature : string) (fitted : list string) (l : string) :
  l ∈ slot_names feature fitted → ∃ c, l = feature +:+ "_" +:+ c.
Proof.
  unfold slot_names. intros (c & -> & _)%list_elem_of_fmap. by exists c.
Qed.

Lemma zip_blocks (names1 names2 : list string) (values1 values2 : list Q) :
  length names1 = length values1 →
  zip (names1 ++ names2) (JNum <$> values1 ++ values2) =
    zip names1 (JNum <$> values1) ++ zip names2 (JNum <$> values2).
Proof.
  intros Hl. rewrite fmap_app. apply zip_with_app. by rewrite length_fmap.
Qed.

(** The labels the handler builds for the four features are distinct when
    the fitted categories of each feature are. *)
Lemma combined_labels_NoDup (soil crop tillage season : list string) :
  NoDup soil → NoDup crop → NoDup tillage → NoDup season →
  NoDup (numerical_cols ++ slot_names "soil_type" soil ++
         slot_names "crop_type" crop ++ slot_names "tillage_type" tillage ++
         slot_names "season" season).
Proof.
  intros Hs Hc Ht He. unfold numerical_cols.
  repeat (apply NoDup_app; split; [| split]);
    try (by apply slot_names_NoDup);
    try (repeat (apply NoDup_cons_2; [in_list |]); apply NoDup_nil_2);
    intros l Hl; rewrite ?elem_of_app; intros Hr;
    repeat match goal with
    | H : _ ∨ _ |- _ => destruct H
    | H : _ ∈ slot_names _ _ |- _ => apply slot_names_elem in H as [? ?]
    | H : _ ∈ _ :: _ |- _ => apply elem_of_cons in H as [? | ?]
    | H : _ ∈ [] |- _ => by apply elem_of_nil in H
    end; simplify_eq/=.
Qed.

(** C6.  With the encoder of the specification, fitted on any distinct
    categories, and any model input columns: a record holding four
    categorical strings and the two numerical fields is encoded without an
    error whether or not its categories were fitted, and the model is
    called on a frame that has exactly the model input columns.  Every
    column of that frame that is a slot of a feature whose value was not
    fitted holds 0, be it a slot the encoder produced or one the
    reindexing of line 68 filled in.  The answer is then the model's: a 200
    with a risk percentage in [0, 100] when it returns a score, a 500 when
    it raises. *)
Theorem unseen_category_zero_filled (m : Model) (columns : list string)
    (soil crop tillage season : list string) (kvs : gmap string json)
    (v_soil v_crop v_tillage v_season : string) (v_temp v_precip : json) :
  let g := {| model := Some m;
              encoder := Some (one_hot_encoder [soil; crop; tillage; season]);
              model_input_columns := columns |} in
  let cats := [("soil_type", JStr v_soil); ("crop_type", JStr v_crop);
               ("tillage_type", JStr v_tillage); ("season", JStr v_season)] in
  let features_combined :=
    [("temp_7day_avg_f", v_temp); ("precip_7day_total_in", v_precip)] ++
    feature_block "soil_type" soil (Some v_soil) ++
    feature_block "crop_type" crop (Some v_crop) ++
    feature_block "tillage_type" tillage (Some v_tillage) ++
    feature_block "season" season (Some v_season) in
  let features_final := take_columns features_combined columns (JNum 0) in
  let calls := [Transform cats; GetFeatureNamesOut categorical_cols;
                DecisionFunction features_final] in
  NoDup soil → NoDup crop → NoDup tillage → NoDup season →
  kvs !! "soil_type" = Some (JStr v_soil) →
  kvs !! "crop_type" = Some (JStr v_crop) →
  kvs !! "tillage_type" = Some (JStr v_tillage) →
  kvs !! "season" = Some (JStr v_season) →
  kvs !! "temp_7day_avg_f" = Some v_temp →
  kvs !! "precip_7day_total_in" = Some v_precip →
  length features_final = length columns ∧
  labels features_final = columns ∧
  (∀ feature fitted value,
     (feature, fitted, value) ∈
       [("soil_type", soil, v_soil); ("crop_type", crop, v_crop);
        ("tillage_type", tillage, v_tillage); ("season", season, v_season)] →
     value ∉ fitted →
     ∀ i c, columns !! i = Some (feature +:+ "_" +:+ c) →
            features_final !! i = Some (feature +:+ "_" +:+ c, JNum 0)) ∧
  (∀ e, decision_function m features_final = inl e →
        handle_predict g (JObj kvs) =
          (calls, jsonify_error ("Prediction failed: " +:+ e) 500)) ∧
  (∀ score, decision_function m features_final = inr score →
     ∃ risk, Binary64.normalize score = Some risk ∧ (0 <= risk <= 100)%Z ∧
             handle_predict g (JObj kvs) =
               (calls, {| body := Result risk score; status := 200 |})).
Proof.
  intros g cats combined features calls Hs Hc Ht He
    Hsoil Hcrop Htill Hseason Htemp Hprecip.
  split; [apply take_columns_length |].
  split; [apply take_columns_labels |].
  split.
  { intros feature fitted value Hin Hunseen i c Hi.
    subst features. rewrite (take_columns_lookup _ _ _ _ _ Hi). do 2 f_equal.
    destruct (cell (feature +:+ "_" +:+ c) combined) as [w |] eqn:Hcell; [| done].
    simpl. apply cell_elem_of in Hcell. subst combined.
    rewrite !elem_of_app, !elem_of_cons, elem_of_nil in Hcell.
    rewrite !elem_of_cons, elem_of_nil in Hin.
    repeat match goal with
    | H : _ ∨ _ |- _ => destruct H
    | H : False |- _ => destruct H
    | H : _ ∈ feature_block _ _ _ |- _ =>
        apply feature_block_elem in H as (? & ? & ? & ?)
    end; simplify_eq/=; try done;
    rewrite decide_False; try done; congruence. }
  assert (Hv : validate kvs = true).
  { unfold validate, required_input_cols, has_column. simpl.
    by rewrite Hsoil, Hcrop, Htill, Hseason, Htemp, Hprecip. }
  assert (Hpre : preprocess (one_hot_encoder [soil; crop; tillage; season])
                   columns kvs =
                 ([Transform cats; GetFeatureNamesOut categorical_cols],
                  inr features)).
  { rewrite (preprocess_steps _ _ kvs cats
               [("temp_7day_avg_f", v_temp); ("precip_7day_total_in", v_precip)]
               (one_hot_slots soil (Some v_soil) ++ one_hot_slots crop (Some v_crop) ++
                one_hot_slots tillage (Some v_tillage) ++
                one_hot_slots season (Some v_season))
               (slot_names "soil_type" soil ++ slot_names "crop_type" crop ++
                slot_names "tillage_type" tillage ++ slot_names "season" season)).
    - assert (Hrow :
        [("temp_7day_avg_f", v_temp); ("precip_7day_total_in", v_precip)] ++
        zip (slot_names "soil_type" soil ++ slot_names "crop_type" crop ++
             slot_names "tillage_type" tillage ++ slot_names "season" season)
            (JNum <$> one_hot_slots soil (Some v_soil) ++
               one_hot_slots crop (Some v_crop) ++
               one_hot_slots tillage (Some v_tillage) ++
               one_hot_slots season (Some v_season))
        = combined).
      { subst combined. f_equal. unfold feature_block.
        rewrite !zip_blocks
          by by rewrite slot_names_length, one_hot_slots_length.
        done. }
      rewrite Hrow. rewrite reindex_unique; [done |].
      subst combined. unfold labels. rewrite !fmap_app.
      fold (labels (feature_block "soil_type" soil (Some v_soil))).
      fold (labels (feature_block "crop_type" crop (Some v_crop))).
      fold (labels (feature_block "tillage_type" tillage (Some v_tillage))).
      fold (labels (feature_block "season" season (Some v_season))).
      rewrite !feature_block_labels. by apply combined_labels_NoDup.
    - simpl. by rewrite Hsoil, Hcrop, Htill, Hseason.
    - simpl. by rewrite Htemp, Hprecip.
    - simpl. by rewrite app_nil_r.
    - simpl. by rewrite app_nil_r.
    - rewrite !length_app, !slot_names_length, !one_hot_slots_length. done. }
  assert (Hh : handle_predict g (JObj kvs) =
                 match preprocess (one_hot_encoder [soil; crop; tillage; season])
                         columns kvs ≫= predict m with
                 | (t, inr response) => (t, response)
                 | (t, inl e) => (t, jsonify_error ("Prediction failed: " +:+ e) 500)
                 end)
    by (by apply handle_predict_valid).
  rewrite Hh, Hpre. unfold mbind, M_bind. split.
  - intros e Hd. by rewrite (predict_raised m features e Hd).
  - intros score Hd.
    destruct (predict_scored m features score Hd) as (risk & Hr & Hrange & ->).
    by exists risk.
Qed.

Lemma unseen_category_zero_filled_witness :
  ("peat" ∉ ["clay"; "loam"]) ∧
  handle_predict
    {| model := Some Fixture.temperature_model;
       encoder := Some (one_hot_encoder Fixture.fitted_categories);
       model_input_columns :=
         ["soil_type_loam"; "temp_7day_avg_f"; "soil_type_peat";
          "season_spring"; "precip_7day_total_in"] |}
    (JObj Fixture.request_unseen_soil) =
  ([Transform [("soil_type", JStr "peat"); ("crop_type", JStr "corn");
               ("tillage_type", JStr "no-till"); ("season", JStr "spring")];
    GetFeatureNamesOut categorical_cols;
    DecisionFunction
      [("soil_type_loam", JNum 0); ("temp_7day_avg_f", JNum 68);
       ("soil_type_peat", JNum 0); ("season_spring", JNum 1);
       ("precip_7day_total_in", JNum 1.2)]],
   {| body := Result 25 0.1; status := 200 |}).
Proof.
  split; [in_list |].
  assert (Hpair : ∀ a b : string, a ≠ b → NoDup [a; b]).
  { intros a b Hab. apply NoDup_cons_2; [| apply NoDup_singleton].
    by intros ->%list_elem_of_singleton. }
  destruct (unseen_category_zero_filled Fixture.temperature_model
              ["soil_type_loam"; "temp_7day_avg_f"; "soil_type_peat";
               "season_spring"; "precip_7day_total_in"]
              ["clay"; "loam"] ["corn"; "wheat"] ["conventional"; "no-till"]
              ["fall"; "spring"] Fixture.request_unseen_soil
              "peat" "corn" "no-till" "spring" (JNum 68) (JNum 1.2)
              (Hpair "clay" "loam" ltac:(discriminate))
              (Hpair "corn" "wheat" ltac:(discriminate))
              (Hpair "conventional" "no-till" ltac:(discriminate))
              (Hpair "fall" "spring" ltac:(discriminate))
              eq_refl eq_refl eq_refl eq_refl eq_refl eq_refl)
    as (_ & _ & _ & _ & Hok).
  destruct (Hok 0.1%float eq_refl) as (risk & Hrisk & _ & Hresp).
  injection Hrisk as <-. exact Hresp.
Defined.
(** ** The reindexing step after a successful load *)

(** The columns kept at load time are the labels the handler builds for
    every request, so with loaded artifacts the reindexing of line 68
    returns the concatenated row as it is. *)
Lemma loaded_reindex_is_identity (m : Model) (enc : Encoder)
    (kvs : gmap string json) (cats nums : row) (encoded : list Q)
    (names : list string) :
  select kvs categorical_cols = inr cats →
  select kvs numerical_cols = inr nums →
  transform enc cats = inr encoded →
  get_feature_names_out enc categorical_cols = inr names →
  length encoded = length names →
  model_input_columns (load (inr m) (inr enc)) = numerical_cols ++ names ∧
  preprocess enc (model_input_columns (load (inr m) (inr enc))) kvs =
    ([Transform cats; GetFeatureNamesOut categorical_cols],
     inr (nums ++ zip names (JNum <$> encoded))).
Proof.
  intros Hc Hn Ht Hg Hl.
  assert (Hcols : model_input_columns (load (inr m) (inr enc)) =
                    numerical_cols ++ names).
  { unfold load. unfold categorical_cols in Hg. by rewrite Hg. }
  split; [exact Hcols |].
  rewrite (preprocess_steps enc _ kvs cats nums encoded names) by done.
  rewrite Hcols, <- (combined_labels nums names encoded kvs) by done.
  by rewrite reindex_same.
Qed.

(** ** The ends of the risk scale *)

Lemma normalize_rounded_range (fl : Q → Q) (s : Q) :
  (0 <= Risk.normalize_rounded fl s <= 100)%Z.
Proof.
  unfold Risk.normalize_rounded.
  set (x := fl _). pose proof (clamp_range x) as [H0 H100].
  split.
  - rewrite <- (py_round_integer 0). by apply py_round_monotone.
  - rewrite <- (py_round_integer 100). by apply py_round_monotone.
Qed.

Lemma saturates_on_thousandths :
  forallb (λ k, match Binary64.normalize (Binary64.thousandth k) with
                | Some r => Z.eqb r 100
                | None => false
                end) (seqZ (-400) 201) = true ∧
  forallb (λ k, match Binary64.normalize (Binary64.thousandth k) with
                | Some r => Z.eqb r 0
                | None => false
                end) (seqZ 200 201) = true.
Proof. by vm_compute. Qed.

Lemma attains_on_thousandths :
  forallb (λ k, match Binary64.normalize (Binary64.thousandth (200 - 4 * k)) with
                | Some r => Z.eqb r k
                | None => false
                end) (seqZ 0 101) = true.
Proof. by vm_compute. Qed.

(** X11.  Outside the calibration interval the risk saturates.  With every
    arithmetic result rounded to binary64, each score at or below -0.2
    gives 100 and each score at or above 0.2 gives 0; and the float
    computation of the handler gives 100 on every score of three decimals
    from -0.4 to -0.2, and 0 on every one from 0.2 to 0.4. *)
Theorem normalize_saturates :
  (∀ s : Q, s <= - (2 # 10) →
     Risk.normalize_rounded Rounding.binary64 s = 100%Z) ∧
  (∀ s : Q, 2 # 10 <= s →
     Risk.normalize_rounded Rounding.binary64 s = 0%Z) ∧
  (∀ k : Z, (-400 <= k <= -200)%Z →
     Binary64.normalize (Binary64.thousandth k) = Some 100%Z) ∧
  (∀ k : Z, (200 <= k <= 400)%Z →
     Binary64.normalize (Binary64.thousandth k) = Some 0%Z).
Proof.
  assert (Hmono : ∀ s1 s2 : Q, s1 <= s2 →
            (Risk.normalize_rounded Rounding.binary64 s2 <=
             Risk.normalize_rounded Rounding.binary64 s1)%Z).
  { intros s1 s2 H. apply normalize_rounded_antitone;
      [apply binary64_monotone | apply binary64_span_positive | exact H]. }
  destruct saturates_on_thousandths as [Hlow Hhigh].
  rewrite forallb_forall in Hlow. rewrite forallb_forall in Hhigh.
  split; [| split; [| split]].
  - intros s Hs. pose proof (Hmono s (- (2 # 10)) Hs) as H.
    pose proof (normalize_rounded_range Rounding.binary64 s) as [_ H100].
    assert (E : Risk.normalize_rounded Rounding.binary64 (- (2 # 10)) = 100%Z)
      by (by vm_compute).
    rewrite E in H. lia.
  - intros s Hs. pose proof (Hmono (2 # 10) s Hs) as H.
    pose proof (normalize_rounded_range Rounding.binary64 s) as [H0 _].
    assert (E : Risk.normalize_rounded Rounding.binary64 (2 # 10) = 0%Z)
      by (by vm_compute).
    rewrite E in H. lia.
  - intros k Hk. specialize (Hlow k).
    destruct (Binary64.normalize (Binary64.thousandth k)) as [r |].
    + f_equal. apply Z.eqb_eq, Hlow, list_elem_of_In, elem_of_seqZ. lia.
    + exfalso. assert (false = true); [| discriminate].
      apply Hlow, list_elem_of_In, elem_of_seqZ. lia.
  - intros k Hk. specialize (Hhigh k).
    destruct (Binary64.normalize (Binary64.thousandth k)) as [r |].
    + f_equal. apply Z.eqb_eq, Hhigh, list_elem_of_In, elem_of_seqZ. lia.
    + exfalso. assert (false = true); [| discriminate].
      apply Hhigh, list_elem_of_In, elem_of_seqZ. lia.
Qed.

Lemma normalize_saturates_witness :
  Risk.normalize_rounded Rounding.binary64 (- 0.3) = 100%Z ∧
  Risk.normalize_rounded Rounding.binary64 0.7 = 0%Z ∧
  Binary64.normalize (Binary64.thousandth (-250)) = Some 100%Z ∧
  Binary64.normalize (Binary64.thousandth 399) = Some 0%Z.
Proof.
  destruct normalize_saturates as (Hlow & Hhigh & Hlow' & Hhigh').
  split; [apply Hlow; discriminate |].
  split; [apply Hhigh; discriminate |].
  split; [apply Hlow'; lia | apply Hhigh'; lia].
Defined.

(** X13.  Every integer percentage from 0 to 100 is the risk the handler
    computes for some score: [k] is the risk of the float nearest to
    [(200 - 4 * k) / 1000], that is to [(50 - k) / 250]. *)
Theorem normalize_attains (k : Z) :
  (0 <= k <= 100)%Z →
  Binary64.normalize (Binary64.thousandth (200 - 4 * k)) = Some k.
Proof.
  intros Hk. pose proof attains_on_thousandths as H.
  rewrite forallb_forall in H. specialize (H k).
  destruct (Binary64.normalize (Binary64.thousandth (200 - 4 * k))) as [r |].
  - f_equal. apply Z.eqb_eq, H, list_elem_of_In, elem_of_seqZ. lia.
  - exfalso. assert (false = true); [| discriminate].
    apply H, list_elem_of_In, elem_of_seqZ. lia.
Qed.

Lemma normalize_attains_witness :
  Binary64.normalize (Binary64.thousandth (200 - 4 * 37)) = Some 37%Z.
Proof. apply normalize_attains. lia. Defined.
(** ** Reindexing *)

(** X8.  Reindexing fails exactly on a row with a repeated label whose labels
    are not already the wanted columns.  When it succeeds the result is
    labelled by the wanted columns in order, and each of its cells either
    is a cell of the row under the same label or is the fill value under a
    label the row does not have: no value is invented or moved to another
    label. *)
Theorem reindex_outcome (r : row) (columns : list string) (fill_value : json) :
  ((∃ e, reindex r columns fill_value = inl e) ↔
   (labels r ≠ columns ∧ ¬ (NoDup (labels r)))) ∧
  (∀ r', reindex r columns fill_value = inr r' →
     labels r' = columns ∧
     ∀ l v, (l, v) ∈ r' →
       (l, v) ∈ r ∨ ((l ∉ labels r) ∧ v = fill_value)).
Proof.
  split.
  - unfold reindex. destruct (decide (labels r = columns)) as [E | N].
    + split; [by intros [e He] | by intros [H _]].
    + destruct (decide (NoDup (labels r))) as [D | D].
      * split; [by intros [e He] | by intros [_ H]].
      * split; [done | intros _; by eexists].
  - intros r' Hr. split; [by eapply reindex_labels |].
    intros l v Hin. revert Hr. unfold reindex.
    destruct (decide (labels r = columns)) as [E | N].
    + intros [= <-]. by left.
    + destruct (decide (NoDup (labels r))) as [D | D]; [| done].
      intros [= <-]. unfold take_columns in Hin.
      apply list_elem_of_fmap in Hin as (c & [= -> ->] & Hc).
      destruct (cell c r) as [w |] eqn:Hcell; simpl.
      * left. by apply cell_elem_of.
      * right. split; [| done]. intros Hl.
        apply cell_is_Some in Hl as [w Hw]. congruence.
Qed.

(** X9.  Reindexing a row of distinct labels onto a rearrangement of these
    labels only reorders the row: the result holds the same cells. *)
Theorem reindex_permutation (r : row) (columns : list string) (fill_value : json) :
  NoDup (labels r) → columns ≡ₚ labels r →
  ∃ r', reindex r columns fill_value = inr r' ∧ r' ≡ₚ r.
Proof.
  intros Hnd Hp. rewrite reindex_unique by done. eexists. split; [done |].
  rewrite <- (take_columns_self r fill_value Hnd) at 2.
  unfold take_columns. by rewrite Hp.
Qed.

Lemma reindex_permutation_witness :
  ∃ r', reindex [("a", JNum 1); ("b", JNum 2); ("c", JNum 3)]
                ["c"; "a"; "b"] (JNum 0) = inr r' ∧
        r' ≡ₚ [("a", JNum 1); ("b", JNum 2); ("c", JNum 3)].
Proof.
  apply reindex_permutation.
  - unfold labels. simpl.
    repeat (apply NoDup_cons_2; [in_list |]). apply NoDup_nil_2.
  - unfold labels. simpl.
    change ["c"; "a"; "b"] with (["c"] ++ ["a"; "b"]).
    change ["a"; "b"; "c"] with (["a"; "b"] ++ ["c"]).
    apply Permutation_app_comm.
Defined.

(** X10.  A second reindexing onto the same columns changes nothing, whatever
    fill value it is given. *)
Theorem reindex_twice (r r' : row) (columns : list string) (fill1 fill2 : json) :
  reindex r columns fill1 = inr r' → reindex r' columns fill2 = inr r'.
Proof.
  intros H. apply reindex_labels in H. rewrite <- H. apply reindex_same.
Qed.

Lemma reindex_twice_witness :
  reindex [("b", JNum 2); ("x", JNum 9)] ["a"; "b"] (JNum 0) =
    inr [("a", JNum 0); ("b", JNum 2)] ∧
  reindex [("a", JNum 0); ("b", JNum 2)] ["a"; "b"] (JNum 7) =
    inr [("a", JNum 0); ("b", JNum 2)].
Proof.
  split; [reflexivity |].
  apply (reindex_twice [("b", JNum 2); ("x", JNum 9)] _ _ (JNum 0)).
  reflexivity.
Defined.

(** ** Shapes of the responses *)

(** What [preprocess] followed by [predict] can give: the calls made, in
    order, and either an exception or a 200 carrying the normalised
    score. *)
Lemma pipeline_outcome (m : Model) (enc : Encoder) (columns : list string)
    (df : gmap string json) (t : list Event) (r : exn + Response) :
  preprocess enc columns df ≫= predict m = (t, r) →
  (t = [] ∧ ∃ e, r = inl e) ∨
  ∃ cats, select df categorical_cols = inr cats ∧
    ((t = [Transform cats] ∧ ∃ e, r = inl e) ∨
     (t = [Transform cats; GetFeatureNamesOut categorical_cols] ∧ ∃ e, r = inl e) ∨
     ∃ X, t = [Transform cats; GetFeatureNamesOut categorical_cols;
               DecisionFunction X] ∧
          labels X = columns ∧
          ((∃ e, decision_function m X = inl e ∧ r = inl e) ∨
           (∃ score risk,
              decision_function m X = inr score ∧
              Binary64.normalize score = Some risk ∧ (0 <= risk <= 100)%Z ∧
              r = inr {| body := Result risk score; status := 200 |}))).
Proof.
  unfold preprocess, mbind, M_bind, lift, call.
  destruct (select df categorical_cols) as [e | cats];
    [intros [= <- <-]; left; split; [done | by eexists] |].
  cbn -[select reindex predict].
  intros H. right. exists cats. split; [done |]. revert H.
  destruct (transform enc cats) as [e | encoded]; cbn -[select reindex predict];
    [intros [= <- <-]; left; split; [done | by eexists] |].
  destruct (get_feature_names_out enc categorical_cols) as [e | names];
    cbn -[select reindex predict];
    [intros [= <- <-]; right; left; split; [done | by eexists] |].
  destruct (DataFrame_of_values encoded names) as [e | encoded_df];
    cbn -[select reindex predict];
    [intros [= <- <-]; right; left; split; [done | by eexists] |].
  destruct (select df numerical_cols) as [e | nums]; cbn -[select reindex predict];
    [intros [= <- <-]; right; left; split; [done | by eexists] |].
  destruct (reindex _ columns (JNum 0)) as [e | X] eqn:Hre;
    cbn -[select reindex predict];
    [intros [= <- <-]; right; left; split; [done | by eexists] |].
  apply reindex_labels in Hre.
  destruct (decision_function m X) as [e | score] eqn:Hd.
  - rewrite (predict_raised m X e Hd). intros [= <- <-].
    right; right; exists X; (split; [done |]); (split; [done |]).
    left. by exists e.
  - destruct (predict_scored m X score Hd) as (risk & Hr & Hrange & ->).
    intros [= <- <-].
    right; right; exists X; (split; [done |]); (split; [done |]).
    right. by exists score, risk.
Qed.

(** X1.  Every response of the route is one of three kinds.  A 200 carries a
    risk percentage that is the normalised value, computed on binary64, of
    the raw score sent with it, between 0 and 100.  A 400 carries an error
    message and is
    decided before any artifact is called.  Anything else is a 500 with an
    error message.  This holds in every module state, for every body,
    readable as JSON or not. *)
Theorem response_kinds (g : Globals) (get_json : exn + json) :
  let '(t, response) := handle_predict_request g get_json in
  (status response = 200%nat ∧
   ∃ score risk, body response = Result risk score ∧
                 Binary64.normalize score = Some risk ∧ (0 <= risk <= 100)%Z) ∨
  (status response = 400%nat ∧ t = [] ∧ ∃ msg, body response = Error msg) ∨
  (status response = 500%nat ∧ ∃ msg, body response = Error msg).
Proof.
  unfold handle_predict_request, handle_predict.
  destruct get_json as [e | input_data];
    destruct (model g) as [m |]; destruct (encoder g) as [enc |];
    try (right; right; split; [done | by eexists]).
  unfold try_block.
  destruct (negb (truthy input_data));
    [right; left; split; [done | split; [done | by eexists]] |].
  destruct (negb (validate _));
    [right; left; split; [done | split; [done | by eexists]] |].
  destruct (preprocess _ _ _ ≫= predict m) as [t r] eqn:Hp.
  apply pipeline_outcome in Hp
    as [[_ [e ->]] | (cats & _ & [[_ [e ->]] | [[_ [e ->]] |
         (X & _ & _ & [(e & _ & ->) | (score & risk & _ & Hr & Hrange & ->)])]])];
    try (right; right; split; [done | by eexists]).
  left. split; [done |]. by exists score, risk.
Qed.

(** X2.  With both artifacts loaded, the answer is a client error exactly when
    the body could be read as JSON and is empty in Python's sense or lacks
    one of the six required keys; no artifact is called then.  A body that
    cannot be read is never a client error. *)
Theorem client_error_iff (g : Globals) (m : Model) (enc : Encoder)
    (get_json : exn + json) :
  model g = Some m → encoder g = Some enc →
  (status (handle_predict_request g get_json).2 = 400%nat ↔
   ∃ input_data, get_json = inr input_data ∧
     (truthy input_data = false ∨
      validate (DataFrame_of_record input_data) = false)) ∧
  (status (handle_predict_request g get_json).2 = 400%nat →
   (handle_predict_request g get_json).1 = []).
Proof.
  intros Hm He. unfold handle_predict_request.
  destruct get_json as [e | input_data].
  { rewrite Hm, He. simpl. split; [split; [done | by intros (j & [=] & _)] | done]. }
  rewrite (handle_predict_loaded g m enc) by done.
  unfold try_block.
  destruct (truthy input_data) eqn:Ht; simpl;
    [| split; [split; [intros _; eexists; split; [done | by left] | done] | done]].
  destruct (validate (DataFrame_of_record input_data)) eqn:Hv; simpl;
    [| split; [split; [intros _; eexists; split; [done | by right] | done] | done]].
  destruct (preprocess _ _ _ ≫= predict m) as [t r] eqn:Hp.
  assert (Hno : status
            (match r with
             | inl e => (t, jsonify_error ("Prediction failed: " +:+ e) 500)
             | inr response => (t, response)
             end).2 ≠ 400%nat).
  { apply pipeline_outcome in Hp
      as [[_ [e ->]] | (cats & _ & [[_ [e ->]] | [[_ [e ->]] |
           (X & _ & _ & [(e & _ & ->) | (score & risk & _ & _ & _ & ->)])]])];
      simpl; lia. }
  destruct r as [e | response]; simpl in *;
    (split; [split; [done | intros (j & [= <-] & [H | H]); congruence] | done]).
Qed.

Lemma client_error_iff_witness :
  status (handle_predict_request Fixture.loaded
            (inr (JObj Fixture.request_no_season))).2 = 400%nat ∧
  (handle_predict_request Fixture.loaded
     (inr (JObj Fixture.request_no_season))).1 = [].
Proof.
  destruct (client_error_iff Fixture.loaded (Fixture.constant_model 0.1)
              (one_hot_encoder Fixture.fitted_categories)
              (inr (JObj Fixture.request_no_season)) eq_refl eq_refl)
    as [Hiff Hcalls].
  assert (H : status (handle_predict_request Fixture.loaded
                        (inr (JObj Fixture.request_no_season))).2 = 400%nat)
    by (apply Hiff; eexists; split; [reflexivity | right; reflexivity]).
  split; [exact H | exact (Hcalls H)].
Defined.

(** X3.  With both artifacts loaded, a body that is JSON but not an object (a
    list, a string, a number, a boolean or null) is always answered with a
    client error, and no artifact is called. *)
Theorem non_object_rejected (g : Globals) (m : Model) (enc : Encoder)
    (input_data : json) :
  model g = Some m → encoder g = Some enc →
  (∀ kvs, input_data ≠ JObj kvs) →
  ∃ msg, handle_predict g input_data = ([], jsonify_error msg 400).
Proof.
  intros Hm He Hobj. rewrite (handle_predict_loaded g m enc) by done.
  unfold try_block. destruct (negb (truthy input_data)); [by eexists |].
  destruct input_data as [| b | x | s | xs | kvs]; try by eexists.
  by destruct (Hobj kvs).
Qed.

Lemma non_object_rejected_witness :
  handle_predict Fixture.loaded (JArr [JObj Fixture.request]) =
    ([], jsonify_error missing_fields_message 400).
Proof.
  destruct (non_object_rejected Fixture.loaded (Fixture.constant_model 0.1)
              (one_hot_encoder Fixture.fitted_categories)
              (JArr [JObj Fixture.request]) eq_refl eq_refl) as [msg Hmsg].
  - intros kvs H. discriminate H.
  - reflexivity.
Defined.

(** X4.  The artifacts are called in a fixed order and at most once each: the
    encoder's [transform] on the four categorical columns of the record,
    then its names, then the model, which is only ever shown a frame
    labelled by exactly the model input columns. *)
Theorem artifact_calls_in_order (g : Globals) (get_json : exn + json) :
  let t := (handle_predict_request g get_json).1 in
  t = [] ∨
  ∃ input_data cats,
    get_json = inr input_data ∧
    select (DataFrame_of_record input_data) categorical_cols = inr cats ∧
    (t = [Transform cats] ∨
     t = [Transform cats; GetFeatureNamesOut categorical_cols] ∨
     ∃ X, t = [Transform cats; GetFeatureNamesOut categorical_cols;
               DecisionFunction X] ∧
          labels X = model_input_columns g).
Proof.
  unfold handle_predict_request, handle_predict.
  destruct get_json as [e | input_data];
    destruct (model g) as [m |]; destruct (encoder g) as [enc |];
    try by left.
  unfold try_block.
  destruct (negb (truthy input_data)); [by left |].
  destruct (negb (validate _)); [by left |].
  destruct (preprocess _ _ _ ≫= predict m) as [t r] eqn:Hp.
  apply pipeline_outcome in Hp
    as [[-> [e ->]] | (cats & Hc & [[-> [e ->]] | [[-> [e ->]] |
         (X & -> & HX & [(e & _ & ->) | (score & risk & _ & _ & _ & ->)])]])];
    simpl;
    [by left | right; exists input_data, cats; split; [done |]; split; [done |] ..].
  - by left.
  - right. by left.
  - right. right. by exists X.
  - right. right. by exists X.
Qed.

(** X5.  With both artifacts loaded, a 200 reports the score the model returned
    for the frame it was last shown, and the risk percentage is the
    normalised value of that score, computed on binary64. *)
Theorem success_reports_model_score (g : Globals) (m : Model) (enc : Encoder)
    (input_data : json) (t : list Event) (risk : Z) (raw : float) :
  model g = Some m → encoder g = Some enc →
  handle_predict g input_data =
    (t, {| body := Result risk raw; status := 200 |}) →
  ∃ cats X,
    t = [Transform cats; GetFeatureNamesOut categorical_cols; DecisionFunction X] ∧
    labels X = model_input_columns g ∧
    decision_function m X = inr raw ∧
    Binary64.normalize raw = Some risk.
Proof.
  intros Hm He. rewrite (handle_predict_loaded g m enc) by done.
  unfold try_block.
  destruct (negb (truthy input_data)); [done |].
  destruct (negb (validate _)); [done |].
  destruct (preprocess _ _ _ ≫= predict m) as [t' r] eqn:Hp.
  apply pipeline_outcome in Hp
    as [[_ [e ->]] | (cats & _ & [[_ [e ->]] | [[_ [e ->]] |
         (X & -> & HX & [(e & _ & ->) | (score & k & Hs & Hk & _ & ->)])]])];
    try done.
  intros [= <- <- <-]. by exists cats, X.
Qed.

Lemma success_reports_model_score_witness :
  ∃ cats X,
    [Transform [("soil_type", JStr "loam"); ("crop_type", JStr "corn");
                ("tillage_type", JStr "no-till"); ("season", JStr "spring")];
     GetFeatureNamesOut categorical_cols;
     DecisionFunction
       [("temp_7day_avg_f", JNum 68); ("precip_7day_total_in", JNum 1.2);
        ("soil_type_clay", JNum 0); ("soil_type_loam", JNum 1);
        ("crop_type_corn", JNum 1); ("crop_type_wheat", JNum 0);
        ("tillage_type_conventional", JNum 0); ("tillage_type_no-till", JNum 1);
        ("season_fall", JNum 0); ("season_spring", JNum 1)]] =
    [Transform cats; GetFeatureNamesOut categorical_cols; DecisionFunction X] ∧
    labels X = model_input_columns Fixture.loaded ∧
    decision_function (Fixture.constant_model 0.1) X = inr 0.1%float ∧
    Binary64.normalize 0.1 = Some 25%Z.
Proof.
  apply (success_reports_model_score Fixture.loaded (Fixture.constant_model 0.1)
           (one_hot_encoder Fixture.fitted_categories) (JObj Fixture.request));
    reflexivity.
Defined.

(** ** Module load and the handler after it *)

(** X7.  The three module-level names are set together.  Either loading failed
    and the state is model [None], encoder [None], no columns; or both
    files loaded, the encoder gave its names, and the columns kept are the
    two numerical names followed by these names.  So the model is missing
    exactly when the encoder is, and exactly when no column is kept. *)
Theorem load_sets_all_or_nothing (model_file : exn + Model)
    (encoder_file : exn + Encoder) :
  let g := load model_file encoder_file in
  (g = load_failed ∨
   ∃ m enc names,
     model_file = inr m ∧ encoder_file = inr enc ∧
     get_feature_names_out enc categorical_cols = inr names ∧
     g = {| model := Some m; encoder := Some enc;
            model_input_columns :=
              "temp_7day_avg_f" :: "precip_7day_total_in" :: names |}) ∧
  (model g = None ↔ encoder g = None) ∧
  (model g = None ↔ model_input_columns g = []).
Proof.
  unfold load. destruct model_file as [e | m]; [by split; [left |] |].
  destruct encoder_file as [e | enc]; [by split; [left |] |].
  fold categorical_cols.
  destruct (get_feature_names_out enc categorical_cols) as [e | names] eqn:Hn;
    [by split; [left |] |].
  split; [right; by exists m, enc, names |]. by split.
Qed.

Lemma select_present_inv (df : gmap string json) (cols : list string) (r : row) :
  select df cols = inr r → ∀ c, c ∈ cols → is_Some (df !! c).
Proof.
  revert r. induction cols as [| c cols IH]; intros r; simpl.
  - intros _ c' Hc'. by apply elem_of_nil in Hc'.
  - destruct (df !! c) as [v |] eqn:Hv; [| done].
    destruct (select df cols) as [e | r'] eqn:Hs; [done |].
    intros _ c' Hc'. apply elem_of_cons in Hc' as [-> | Hc']; [by eexists |].
    by eapply IH.
Qed.

(** X6.  After a successful load the handler, on a record holding the six
    keys, comes down to three steps.  If [transform] raises, the answer is
    a 500 with that text.  If it answers a number of values other than the
    number of encoder names, the answer is a 500 and the model is not
    called.  Otherwise the model is shown the two numerical cells followed
    by the encoded values under the encoder's names, in the encoder's order
    (the reindexing of line 68 changes nothing); the answer is a 500 with
    the text of what the model raised, or a 200 with its score and that
    score normalised on binary64, between 0 and 100. *)
Theorem loaded_handler_closed_form (m : Model) (enc : Encoder)
    (kvs : gmap string json) (cats nums : row) (names : list string) :
  let g := load (inr m) (inr enc) in
  let failed e := jsonify_error ("Prediction failed: " +:+ e) 500 in
  get_feature_names_out enc categorical_cols = inr names →
  select kvs categorical_cols = inr cats →
  select kvs numerical_cols = inr nums →
  (∀ e, transform enc cats = inl e →
     handle_predict g (JObj kvs) = ([Transform cats], failed e)) ∧
  (∀ encoded,
     transform enc cats = inr encoded → length encoded ≠ length names →
     ∃ e, handle_predict g (JObj kvs) =
            ([Transform cats; GetFeatureNamesOut categorical_cols], failed e)) ∧
  (∀ encoded,
     transform enc cats = inr encoded → length encoded = length names →
     let X := nums ++ zip names (JNum <$> encoded) in
     let calls :=
       [Transform cats; GetFeatureNamesOut categorical_cols; DecisionFunction X] in
     (∀ e, decision_function m X = inl e →
        handle_predict g (JObj kvs) = (calls, failed e)) ∧
     (∀ score, decision_function m X = inr score →
        ∃ risk, Binary64.normalize score = Some risk ∧ (0 <= risk <= 100)%Z ∧
          handle_predict g (JObj kvs) =
            (calls, {| body := Result risk score; status := 200 |}))).
Proof.
  intros g failed Hnames Hc Hn.
  assert (Hg : g = {| model := Some m; encoder := Some enc;
                      model_input_columns := numerical_cols ++ names |}).
  { subst g. unfold load. fold categorical_cols. by rewrite Hnames. }
  assert (Hv : validate kvs = true).
  { apply validate_all_present. intros c Hc'.
    assert (c ∈ categorical_cols ∨ c ∈ numerical_cols) as [H | H]
      by (revert Hc'; in_list).
    - exact (select_present_inv _ _ _ Hc c H).
    - exact (select_present_inv _ _ _ Hn c H). }
  rewrite (handle_predict_valid g m enc) by (by rewrite ?Hg).
  rewrite Hg. cbn [model_input_columns]. subst failed.
  split; [| split].
  - intros e Ht. unfold preprocess, mbind, M_bind, lift, call.
    rewrite Hc. cbn -[select reindex]. by rewrite Ht.
  - intros encoded Ht Hl. unfold preprocess, mbind, M_bind, lift, call.
    rewrite Hc. cbn -[select reindex]. rewrite Ht. cbn -[select reindex].
    rewrite Hnames. cbn -[select reindex].
    unfold DataFrame_of_values. rewrite decide_False by done. by eexists.
  - intros encoded Ht Hl.
    rewrite (preprocess_steps enc _ kvs cats nums encoded names) by done.
    rewrite <- (combined_labels nums names encoded kvs) by done.
    rewrite reindex_same.
    set (X := nums ++ zip names (JNum <$> encoded)).
    unfold mbind, M_bind. split.
    + intros e Hd. by rewrite (predict_raised m X e Hd).
    + intros score Hd.
      destruct (predict_scored m X score Hd) as (risk & Hr & Hrange & Hp).
      exists risk. split; [exact Hr |]. split; [exact Hrange |].
      by rewrite Hp.
Qed.

Lemma loaded_handler_closed_form_witness :
  handle_predict
    (load (inr Fixture.temperature_model)
          (inr (one_hot_encoder Fixture.fitted_categories)))
    (JObj Fixture.request) =
  ([Transform [("soil_type", JStr "loam"); ("crop_type", JStr "corn");
               ("tillage_type", JStr "no-till"); ("season", JStr "spring")];
    GetFeatureNamesOut categorical_cols;
    DecisionFunction
      ([("temp_7day_avg_f", JNum 68); ("precip_7day_total_in", JNum 1.2)] ++
       zip ["soil_type_clay"; "soil_type_loam"; "crop_type_corn";
            "crop_type_wheat"; "tillage_type_conventional";
            "tillage_type_no-till"; "season_fall"; "season_spring"]
           (JNum <$> [0; 1; 1; 0; 0; 1; 0; 1]))],
   {| body := Result 25 0.1; status := 200 |}).
Proof.
  destruct (proj2 (proj2 (proj2 (loaded_handler_closed_form
              Fixture.temperature_model
              (one_hot_encoder Fixture.fitted_categories) Fixture.request
              _ _ _ eq_refl eq_refl eq_refl)) _ eq_refl eq_refl)
            0.1%float eq_refl) as (risk & Hr & _ & H).
  vm_compute in Hr. injection Hr as <-. exact H.
Defined.

Lemma reindex_outcome_witness :
  labels [("a", JNum 0); ("b", JNum 2)] = ["a"; "b"] ∧
  ((("a", JNum 0) ∈ [("b", JNum 2); ("x", JNum 9)]) ∨
   (("a" ∉ labels [("b", JNum 2); ("x", JNum 9)]) ∧ JNum 0 = JNum 0)).
Proof.
  destruct (proj2 (reindex_outcome [("b", JNum 2); ("x", JNum 9)] ["a"; "b"]
                     (JNum 0)) [("a", JNum 0); ("b", JNum 2)] eq_refl)
    as [Hlabels Hcells].
  split; [exact Hlabels |]. apply Hcells. apply elem_of_cons. by left.
Defined.

Lemma normalize_rounded_antitone_witness :
  (Risk.normalize_rounded (fun x => inject_Z (Qfloor (1000 * x)) / 1000)%Q 0.2%Q <=
   Risk.normalize_rounded (fun x => inject_Z (Qfloor (1000 * x)) / 1000)%Q 0.1937%Q)%Z.
Proof.
  apply normalize_rounded_antitone.
  - intros x y H. apply Qmult_le_compat_r; [| discriminate].
    rewrite <- Zle_Qle. apply Qfloor_resp_le.
    apply Qmult_le_l; [reflexivity | exact H].
  - reflexivity.
  - discriminate.
Defined.
